(** * GPIB session manager (GPIB.py, LGAD_IV.py): a shallow embedding

    [GPIBController] keeps a dictionary of open instrument handles and
    forwards every call to a VISA resource manager.  The VISA layer is an
    external collaborator: it is embedded as a record of transition
    functions over an abstract environment state, so that every theorem
    below holds whatever the instruments answer and whichever calls raise.

    Conventions of the model.
    - Python [str] is [string]; characters are read as code points below 256.
    - Time ([time.time], [time.sleep], the [delay] and [timeout] floats) is
      an integer number of milliseconds: [0.1] s is [100], [2.0] s is [2000],
      [30.0] s is [30000]; a float that is not a finite number has no
      counterpart.  [time.sleep d] advances the clock by exactly [d], or
      raises when [d] is negative or too long for it;
      a transport call advances it by the duration the environment reports
      (a natural number, so the clock never runs backwards).
    - [try: ... except Exception as e: ...] is [try_except]; the exceptions
      the transport raises are ordinary [Exception]s.
    - Every call that reaches the transport is appended to a trace, together
      with what it answered. *)

From Stdlib Require Import ZArith NArith List String Ascii Bool Arith Lia.
Import ListNotations.

Local Open Scope string_scope.
Local Open Scope Z_scope.
Local Open Scope list_scope.

(** ** Python values used by the module *)

Definition handle := nat.

Inductive exn : Type :=
| VisaIOError (code : Z)
| ValueError
| OverflowError
| KeyError (key : string)
| OtherError (msg : string).

Inductive outcome (A : Type) : Type :=
| Ok (a : A)
| Raise (e : exn).

Arguments Ok {A} a.
Arguments Raise {A} e.

Definition is_ok {A : Type} (r : outcome A) : bool :=
  match r with Ok _ => true | Raise _ => false end.

Definition raised {A : Type} (r : outcome A) : bool := negb (is_ok r).

(** [bool(s)] for a string and for an optional string ([None] is falsy). *)
Definition str_truthy (s : string) : bool :=
  match s with EmptyString => false | String _ _ => true end.

Definition opt_truthy (a : option string) : bool :=
  match a with None => false | Some s => str_truthy s end.

(** [a if a else b] on an optional string with a string fallback. *)
Definition or_else (a : option string) (b : string) : string :=
  match a with
  | Some s => if str_truthy s then s else b
  | None => b
  end.

(** [x == y] between an [Optional[str]] and a string literal. *)
Definition opt_str_eqb (x : option string) (y : string) : bool :=
  match x with Some s => String.eqb s y | None => false end.

(** *** [str.strip()] *)

(** [str.isspace] on one code point below 256. *)
Definition isspace (c : ascii) : bool :=
  let n := nat_of_ascii c in
  (((9 <=? n) && (n <=? 13)) || ((28 <=? n) && (n <=? 32))
   || (n =? 133) || (n =? 160))%nat.

Fixpoint lstrip_chars (l : list ascii) : list ascii :=
  match l with
  | [] => []
  | c :: r => if isspace c then lstrip_chars r else l
  end.

Definition strip (s : string) : string :=
  string_of_list_ascii
    (rev (lstrip_chars (rev (lstrip_chars (list_ascii_of_string s))))).

Definition LF : string := String (ascii_of_nat 10) EmptyString.

(** ** The registry: a Python [dict] from [str] to handles

    Insertion-ordered, as Python's dictionaries are: assigning to a key that
    is present keeps its position, assigning to a new key appends. *)
Module Dict.

Definition t : Type := list (string * handle).

Definition empty : t := [].

Fixpoint get (k : string) (d : t) : option handle :=
  match d with
  | [] => None
  | (k', v) :: r => if String.eqb k k' then Some v else get k r
  end.

(** [k in d] *)
Definition contains (k : string) (d : t) : bool :=
  match get k d with Some _ => true | None => false end.

(** [d[k] = v] *)
Fixpoint set (k : string) (v : handle) (d : t) : t :=
  match d with
  | [] => [(k, v)]
  | (k', v') :: r =>
      if String.eqb k k' then (k, v) :: r else (k', v') :: set k v r
  end.

(** [del d[k]] (the caller has checked that [k] is present) *)
Fixpoint del (k : string) (d : t) : t :=
  match d with
  | [] => []
  | (k', v') :: r =>
      if String.eqb k k' then r else (k', v') :: del k r
  end.

(** [list(d.keys())] *)
Definition keys (d : t) : list string := map fst d.

Definition values (d : t) : list handle := map snd d.

(** A dictionary holds each key once. *)
Definition wf (d : t) : Prop := NoDup (keys d).

End Dict.

(** ** The transport and its trace *)

Inductive level : Type := DEBUG | INFO | WARNING | ERROR.

(** One entry per call that reached the VISA layer or [time.sleep], with the
    answer it gave. *)
Inductive event : Type :=
| EvResourceManager (visa_library : option string) (r : outcome unit)
| EvListResources (r : outcome (list string))
| EvOpenResource (resource_name : string) (r : outcome handle)
| EvSetTimeout (h : handle) (ms : Z) (r : outcome unit)
| EvSetWriteTermination (h : handle) (term : string) (r : outcome unit)
| EvSetReadTermination (h : handle) (term : string) (r : outcome unit)
| EvWrite (h : handle) (command : string) (r : outcome unit)
| EvQuery (h : handle) (command : string) (r : outcome string)
| EvRead (h : handle) (r : outcome string)
| EvClose (h : handle) (r : outcome unit)
| EvRmClose (r : outcome unit)
| EvSleep (ms : Z).

(** What a transport call gives back: its result, how long it took (ms) and
    the environment afterwards. *)
Definition reply (E A : Type) : Type := (outcome A * N * E)%type.

(** The VISA collaborator ([pyvisa.ResourceManager] and the resources it
    opens).  Nothing is assumed about it. *)
Record Transport (E : Type) : Type := {
  visa_ResourceManager : option string -> E -> reply E unit;
  visa_list_resources : E -> reply E (list string);
  visa_open_resource : string -> E -> reply E handle;
  visa_set_timeout : handle -> Z -> E -> reply E unit;
  visa_set_write_termination : handle -> string -> E -> reply E unit;
  visa_set_read_termination : handle -> string -> E -> reply E unit;
  visa_write : handle -> string -> E -> reply E unit;
  visa_query : handle -> string -> E -> reply E string;
  visa_read : handle -> E -> reply E string;
  visa_close : handle -> E -> reply E unit;
  visa_rm_close : E -> reply E unit
}.

Arguments visa_ResourceManager {E} _ _ _.
Arguments visa_list_resources {E} _ _.
Arguments visa_open_resource {E} _ _ _.
Arguments visa_set_timeout {E} _ _ _ _.
Arguments visa_set_write_termination {E} _ _ _ _.
Arguments visa_set_read_termination {E} _ _ _ _.
Arguments visa_write {E} _ _ _ _.
Arguments visa_query {E} _ _ _ _.
Arguments visa_read {E} _ _ _.
Arguments visa_close {E} _ _ _.
Arguments visa_rm_close {E} _ _.

(** Everything outside the controller object. *)
Record world (E : Type) : Type := mkWorld {
  env : E;
  clock : Z;
  trace : list event;
  logs : list level
}.

Arguments mkWorld {E} _ _ _ _.
Arguments env {E} _.
Arguments clock {E} _.
Arguments trace {E} _.
Arguments logs {E} _.

(** A [GPIBController] object ([self.instruments]; [self.rm] is the one
    resource manager of the transport) in its world. *)
Record state (E : Type) : Type := mkState {
  instruments : Dict.t;
  wld : world E
}.

Arguments mkState {E} _ _.
Arguments instruments {E} _.
Arguments wld {E} _.

(** ** A state-and-exception monad for method bodies *)

Definition M (E A : Type) : Type := state E -> outcome A * state E.

Definition ret {E A : Type} (a : A) : M E A := fun s => (Ok a, s).

Definition bind {E A B : Type} (m : M E A) (k : A -> M E B) : M E B :=
  fun s =>
    match m s with
    | (Ok a, s') => k a s'
    | (Raise e, s') => (Raise e, s')
    end.

(** [try: body except Exception as e: handler e] *)
Definition try_except {E A : Type} (body : M E A) (handler : exn -> M E A)
  : M E A :=
  fun s =>
    match body s with
    | (Ok a, s') => (Ok a, s')
    | (Raise e, s') => handler e s'
    end.

Declare Scope py_scope.
Delimit Scope py_scope with py.
Notation "x <- m ;; k" := (bind m (fun x => k))
  (at level 61, m at next level, right associativity) : py_scope.
Notation "m ;;; k" := (bind m (fun _ => k))
  (at level 61, right associativity) : py_scope.

(** [for x in xs: body x] *)
Fixpoint for_each {E A : Type} (xs : list A) (body : A -> M E unit)
  : M E unit :=
  match xs with
  | [] => ret tt
  | x :: r => bind (body x) (fun _ => for_each r body)
  end.

(** The longest sleep, in ms: [time.sleep] keeps the duration as a signed
    64-bit number of nanoseconds (at most 2^63 - 1 ns, about 292 years). *)
Definition sleep_max : Z := 9223372036854.

(** [time.sleep d] goes through: [d] is neither negative nor too long. *)
Definition sleepable (ms : Z) : bool := (0 <=? ms) && (ms <=? sleep_max).

(** What [time.sleep d] raises when it does not go through. *)
Definition sleep_error (ms : Z) : exn :=
  if (ms <? - sleep_max) || (sleep_max <? ms) then OverflowError
  else ValueError.

(** ** [class GPIBController] *)
Section Controller.

Context {E : Type} (T : Transport E).

Local Open Scope py_scope.

(** *** Primitive effects *)

(** A call into the VISA layer: run it on the environment, advance the
    clock by its duration, record the call and its answer. *)
Definition transport_call {A : Type} (f : E -> reply E A)
    (ev : outcome A -> event) (w : world E) : outcome A * world E :=
  match f (env w) with
  | (r, dt, e') =>
      (r, mkWorld e' (clock w + Z.of_N dt) (trace w ++ [ev r]) (logs w))
  end.

Definition in_world {A : Type} (f : world E -> outcome A * world E)
  : M E A :=
  fun s =>
    match f (wld s) with
    | (r, w') => (r, mkState (instruments s) w')
    end.

Definition transport {A : Type} (f : E -> reply E A)
    (ev : outcome A -> event) : M E A :=
  in_world (transport_call f ev).

(** [logger.<lvl>(...)] *)
Definition log_world (lvl : level) (w : world E) : world E :=
  mkWorld (env w) (clock w) (trace w) (logs w ++ [lvl]).

Definition logger (lvl : level) : M E unit :=
  in_world (fun w => (Ok tt, log_world lvl w)).

(** [time.time()] *)
Definition time_time : M E Z := fun s => (Ok (clock (wld s)), s).

(** [time.sleep(ms)].  [time.sleep] first converts its argument to a signed
    64-bit count of nanoseconds, an [OverflowError] when it does not fit;
    a negative duration is then a [ValueError]. *)
Definition sleep_world (ms : Z) (w : world E) : outcome unit * world E :=
  if (ms <? - sleep_max) || (sleep_max <? ms) then (Raise OverflowError, w)
  else if ms <? 0 then (Raise ValueError, w)
  else (Ok tt,
        mkWorld (env w) (clock w + ms) (trace w ++ [EvSleep ms]) (logs w)).

Definition time_sleep (ms : Z) : M E unit := in_world (sleep_world ms).

(** [k in self.instruments] *)
Definition instruments_contains (k : string) : M E bool :=
  fun s => (Ok (Dict.contains k (instruments s)), s).

(** [self.instruments[k]] *)
Definition instruments_getitem (k : string) : M E handle :=
  fun s =>
    match Dict.get k (instruments s) with
    | Some h => (Ok h, s)
    | None => (Raise (KeyError k), s)
    end.

(** [self.instruments[k] = h] *)
Definition instruments_setitem (k : string) (h : handle) : M E unit :=
  fun s => (Ok tt, mkState (Dict.set k h (instruments s)) (wld s)).

(** [del self.instruments[k]] *)
Definition instruments_delitem (k : string) : M E unit :=
  fun s =>
    if Dict.contains k (instruments s)
    then (Ok tt, mkState (Dict.del k (instruments s)) (wld s))
    else (Raise (KeyError k), s).

(** [list(self.instruments.keys())] *)
Definition instruments_keys : M E (list string) :=
  fun s => (Ok (Dict.keys (instruments s)), s).

(** *** Methods *)

(** [__init__]: on success the object exists with an empty registry; a
    failure of [pyvisa.ResourceManager] is logged and raised again. *)
Definition __init__ (visa_library : option string) (w : world E)
  : outcome (state E) * world E :=
  let arg := if opt_truthy visa_library then visa_library else None in
  match transport_call (visa_ResourceManager T arg)
                       (EvResourceManager arg) w with
  | (Ok _, w1) =>
      let w2 := log_world INFO w1 in
      (Ok (mkState Dict.empty w2), w2)
  | (Raise e, w1) => (Raise e, log_world ERROR w1)
  end.

Definition list_resources : M E (list string) :=
  try_except
    (resources <- transport (visa_list_resources T) EvListResources ;;
     logger INFO ;;;
     ret resources)
    (fun e => logger ERROR ;;; ret []).

Definition connect_instrument (resource_name : string)
    (alias : option string) : M E bool :=
  try_except
    (instrument <- transport (visa_open_resource T resource_name)
                             (EvOpenResource resource_name) ;;
     transport (visa_set_timeout T instrument 10000)
               (EvSetTimeout instrument 10000) ;;;
     transport (visa_set_write_termination T instrument LF)
               (EvSetWriteTermination instrument LF) ;;;
     transport (visa_set_read_termination T instrument LF)
               (EvSetReadTermination instrument LF) ;;;
     let key := or_else alias resource_name in
     instruments_setitem key instrument ;;;
     logger INFO ;;;
     ret true)
    (fun e => logger ERROR ;;; ret false).

Definition disconnect_instrument (identifier : string) : M E bool :=
  try_except
    (present <- instruments_contains identifier ;;
     if present then
       h <- instruments_getitem identifier ;;
       transport (visa_close T h) (EvClose h) ;;;
       instruments_delitem identifier ;;;
       logger INFO ;;;
       ret true
     else
       logger WARNING ;;;
       ret false)
    (fun e => logger ERROR ;;; ret false).

Definition send_command (identifier command : string) (delay : Z)
  : M E bool :=
  try_except
    (present <- instruments_contains identifier ;;
     if negb present then
       logger ERROR ;;;
       ret false
     else
       h <- instruments_getitem identifier ;;
       transport (visa_write T h command) (EvWrite h command) ;;;
       time_sleep delay ;;;
       logger DEBUG ;;;
       ret true)
    (fun e => logger ERROR ;;; ret false).

Definition query_command (identifier command : string) (delay : Z)
  : M E (option string) :=
  try_except
    (present <- instruments_contains identifier ;;
     if negb present then
       logger ERROR ;;;
       ret None
     else
       h <- instruments_getitem identifier ;;
       response <- transport (visa_query T h command)
                             (EvQuery h command) ;;
       time_sleep delay ;;;
       logger DEBUG ;;;
       ret (Some (strip response)))
    (fun e => logger ERROR ;;; ret None).

Definition read_response (identifier : string) : M E (option string) :=
  try_except
    (present <- instruments_contains identifier ;;
     if negb present then
       logger ERROR ;;;
       ret None
     else
       h <- instruments_getitem identifier ;;
       response <- transport (visa_read T h) (EvRead h) ;;
       logger DEBUG ;;;
       ret (Some (strip response)))
    (fun e => logger ERROR ;;; ret None).

(** The default [delay=0.1] of [send_command] and [query_command]. *)
Definition default_delay : Z := 100.

Definition get_identification (identifier : string)
  : M E (option string) :=
  query_command identifier "*IDN?" default_delay.

Definition reset_instrument (identifier : string) : M E bool :=
  send_command identifier "*RST" 2000.

Definition clear_instrument (identifier : string) : M E bool :=
  send_command identifier "*CLS" default_delay.

(** One turn of the [while] loop of [wait_for_completion]: [Some b] is
    [return b], [None] is "go round again". *)
Definition wait_iteration (identifier : string) (start_time timeout : Z)
  : M E (option bool) :=
  now <- time_time ;;
  if now - start_time <? timeout then
    response <- query_command identifier "*OPC?" default_delay ;;
    if opt_str_eqb response "1" then ret (Some true)
    else time_sleep 100 ;;; ret None
  else
    logger WARNING ;;;
    ret (Some false).

(** The loop, with a bound on the number of turns; [None] means the bound
    was reached ([wait_fuel] below is always enough). *)
Fixpoint wait_loop (fuel : nat) (identifier : string)
    (start_time timeout : Z) (s : state E)
  : option (outcome bool * state E) :=
  match fuel with
  | O => None
  | S fuel' =>
      match wait_iteration identifier start_time timeout s with
      | (Ok (Some b), s') => Some (Ok b, s')
      | (Ok None, s') => wait_loop fuel' identifier start_time timeout s'
      | (Raise e, s') => Some (Raise e, s')
      end
  end.

Definition wait_for_completion (fuel : nat) (identifier : string)
    (timeout : Z) (s : state E) : option (outcome bool * state E) :=
  match time_time s with
  | (Ok start_time, s0) => wait_loop fuel identifier start_time timeout s0
  | (Raise e, s0) => Some (Raise e, s0)
  end.

(** Turns that [wait_for_completion] can need: every turn that does not
    return sleeps 0.1 s. *)
Definition wait_fuel (timeout : Z) : nat :=
  S (Z.to_nat ((timeout + 99) / 100)).

Definition close_all_connections : M E unit :=
  identifiers <- instruments_keys ;;
  for_each identifiers
    (fun identifier => disconnect_instrument identifier ;;; ret tt) ;;;
  try_except
    (transport (visa_rm_close T) EvRmClose ;;;
     logger INFO)
    (fun e => logger ERROR).

End Controller.

Arguments sleep_world {E} ms w : simpl never.

(** ** [class LGAD_IV(GPIBController)]: construction delegates to the base
    class and every method is inherited unchanged. *)
Module LGAD_IV.

Definition __init__ {E : Type} (T : Transport E)
    (visa_library : option string) (w : world E)
  : outcome (state E) * world E :=
  __init__ T visa_library w.

End LGAD_IV.

(** ** Reading traces *)

(** The calls made between two states of one run. *)
Definition new_events {E : Type} (s s' : state E) : list event :=
  skipn (List.length (trace (wld s))) (trace (wld s')).

Definition is_close_of (h : handle) (ev : event) : bool :=
  match ev with EvClose h' _ => Nat.eqb h h' | _ => false end.

Definition is_rm_close (ev : event) : bool :=
  match ev with EvRmClose _ => true | _ => false end.

Definition is_query (ev : event) : bool :=
  match ev with EvQuery _ _ _ => true | _ => false end.

(** A call into the VISA layer (anything but a sleep). *)
Definition is_transport (ev : event) : bool :=
  match ev with EvSleep _ => false | _ => true end.

(** The call raised. *)
Definition ev_raised (ev : event) : bool :=
  match ev with
  | EvResourceManager _ r | EvSetTimeout _ _ r | EvSetWriteTermination _ _ r
  | EvSetReadTermination _ _ r | EvWrite _ _ r | EvClose _ r
  | EvRmClose r => raised r
  | EvListResources r => raised r
  | EvOpenResource _ r => raised r
  | EvQuery _ _ r | EvRead _ r => raised r
  | EvSleep _ => false
  end.

(** An [*OPC?] poll whose (stripped) response is the string ["1"]. *)
Definition opc_done (ev : event) : bool :=
  match ev with
  | EvQuery _ command (Ok response) =>
      String.eqb command "*OPC?" && String.eqb (strip response) "1"
  | _ => false
  end.

Definition count (p : event -> bool) (evs : list event) : nat :=
  List.length (filter p evs).

Definition close_calls (h : handle) (evs : list event) : nat :=
  count (is_close_of h) evs.

(** The controller touched nothing outside itself, and not its registry. *)
Definition untouched {E : Type} (s s' : state E) : Prop :=
  instruments s' = instruments s /\
  env (wld s') = env (wld s) /\
  clock (wld s') = clock (wld s) /\
  trace (wld s') = trace (wld s).

(** The result [r] of running a method from [s] is a value, not an
    exception; and it is the [sentinel] when a call made on the way raised. *)
Definition returns_or_sentinel {E A : Type} (sentinel : A) (s : state E)
    (r : outcome A * state E) : Prop :=
  exists v : A,
    fst r = Ok v /\
    (existsb ev_raised (new_events s (snd r)) = true -> v = sentinel).

(** The world after a transport call recorded as [ev], which took [dt] ms
    and left the environment [e'], followed by a log line. *)
Definition after_call {E : Type} (w : world E) (ev : event) (dt : N)
    (e' : E) (lvl : level) : world E :=
  mkWorld e' (clock w + Z.of_N dt) (trace w ++ [ev]) (logs w ++ [lvl]).

(** The four calls of a successful [connect_instrument]. *)
Definition connect_events (resource_name : string) (h : handle)
  : list event :=
  [EvOpenResource resource_name (Ok h);
   EvSetTimeout h 10000 (Ok tt);
   EvSetWriteTermination h LF (Ok tt);
   EvSetReadTermination h LF (Ok tt)].

(** The close events of a run of [close_all_connections] over the entries
    [d], given what each close answered. *)
Fixpoint close_events (d : Dict.t) (outs : list (outcome unit))
  : list event :=
  match d, outs with
  | (_, h) :: d', r :: outs' => EvClose h r :: close_events d' outs'
  | _, _ => []
  end.

(** The entries of [d] whose close raised. *)
Fixpoint close_failed (d : Dict.t) (outs : list (outcome unit)) : Dict.t :=
  match d, outs with
  | kv :: d', r :: outs' =>
      if raised r then kv :: close_failed d' outs' else close_failed d' outs'
  | _, _ => []
  end.

(** ** A scripted instrument bench, for running the methods

    Handles are numbered as they are opened; closing a handle listed in
    [bad_close] raises; every query is answered with [answer]; nothing takes
    time. *)
Module Bench.

Record t : Type := mk {
  next_handle : handle;
  bad_close : list handle;
  answer : string
}.

Definition instant {A : Type} (r : outcome A) (b : t) : reply t A :=
  (r, 0%N, b).

Definition close (h : handle) (b : t) : reply t unit :=
  if existsb (Nat.eqb h) (bad_close b)
  then instant (Raise (VisaIOError (-1073807346))) b
  else instant (Ok tt) b.

Definition visa : Transport t := {|
  visa_ResourceManager := fun _ => instant (Ok tt);
  visa_list_resources := instant (Ok ["GPIB0::10::INSTR"]);
  visa_open_resource := fun _ b =>
    (Ok (next_handle b), 0%N,
     mk (S (next_handle b)) (bad_close b) (answer b));
  visa_set_timeout := fun _ _ => instant (Ok tt);
  visa_set_write_termination := fun _ _ => instant (Ok tt);
  visa_set_read_termination := fun _ _ => instant (Ok tt);
  visa_write := fun _ _ => instant (Ok tt);
  visa_query := fun _ _ b => instant (Ok (answer b)) b;
  visa_read := fun _ b => instant (Ok (answer b)) b;
  visa_close := close;
  visa_rm_close := instant (Ok tt)
|}.

(** A controller holding [d] on a bench that has opened [n] handles. *)
Definition start (d : Dict.t) (n : handle) (bad : list handle)
    (ans : string) : state t :=
  mkState d (mkWorld (mk n bad ans) 0 [] []).

Definition three : Dict.t :=
  [("smu1", 0%nat); ("smu2", 1%nat); ("scope", 2%nat)].

End Bench.

(** ** The example scripts ([test_connection], [__main__] of GPIB.py, and
    [ParameterAnalyzer4200ASCS_SMUs], [__main__] of LGAD_IV.py)

    A script runs methods on a controller and prints.  What is printed is
    kept apart from the text formatting: the list of resources and the
    exception are recorded as values. *)

Inductive printed : Type :=
| PrintLine (text : string)
| PrintAvailable (resources : list string)
| PrintError (prefix : string) (e : exn).

Definition Script (E A : Type) : Type :=
  state E -> outcome A * state E * list printed.

Definition sret {E A : Type} (a : A) : Script E A :=
  fun s => (Ok a, s, []).

Definition sbind {E A B : Type} (m : Script E A) (k : A -> Script E B)
  : Script E B :=
  fun s =>
    match m s with
    | (Ok a, s1, out1) =>
        match k a s1 with
        | (r, s2, out2) => (r, s2, out1 ++ out2)
        end
    | (Raise e, s1, out1) => (Raise e, s1, out1)
    end.

(** A method call inside a script. *)
Definition call {E A : Type} (m : M E A) : Script E A :=
  fun s => match m s with (r, s') => (r, s', []) end.

(** [print(...)] *)
Definition print {E : Type} (p : printed) : Script E unit :=
  fun s => (Ok tt, s, [p]).

Declare Scope script_scope.
Delimit Scope script_scope with script.
Notation "x <- m ;; k" := (sbind m (fun x => k))
  (at level 61, m at next level, right associativity) : script_scope.
Notation "m ;;; k" := (sbind m (fun _ => k))
  (at level 61, right associativity) : script_scope.

(** [s * n] on strings. *)
Fixpoint str_mul (s : string) (n : nat) : string :=
  match n with
  | O => EmptyString
  | S n' => String.append s (str_mul s n')
  end.

Section Scripts.

Context {E : Type} (T : Transport E).

Local Open Scope script_scope.

(** The body of [test_connection] once the controller exists. *)
Definition test_connection_body : Script E unit :=
  resources <- call (list_resources T) ;;
  print (PrintAvailable resources) ;;;
  match resources with
  | instrument_address :: _ =>
      connected <- call (connect_instrument T instrument_address
                           (Some "my_instrument")) ;;
      if connected then
        call (disconnect_instrument T "my_instrument") ;;;
        sret tt
      else sret tt
  | [] => sret tt
  end ;;;
  call (close_all_connections T).

(** [test_connection()]: an exception of the constructor propagates. *)
Definition test_connection (w : world E)
  : outcome unit * world E * list printed :=
  match __init__ T None w with
  | (Ok gpib, _) =>
      match test_connection_body gpib with
      | (r, s', out) => (r, wld s', out)
      end
  | (Raise e, w') => (Raise e, w', [])
  end.

(** The body of [ParameterAnalyzer4200ASCS_SMUs] once the controller
    exists. *)
Definition ParameterAnalyzer4200ASCS_SMUs_body : Script E unit :=
  resources <- call (list_resources T) ;;
  print (PrintAvailable resources) ;;;
  match resources with
  | instrument_address :: _ =>
      connected <- call (connect_instrument T instrument_address
                           (Some "my_instrument")) ;;
      if connected then
        sent <- call (send_command T "my_instrument"
                        "CH1, 'V1', 'I1', 1, 3" default_delay) ;;
        (if sent
         then print (PrintLine "Command sent successfully")
         else print (PrintLine "Failed to send command")) ;;;
        call (disconnect_instrument T "my_instrument") ;;;
        sret tt
      else sret tt
  | [] => sret tt
  end ;;;
  call (close_all_connections T).

Definition ParameterAnalyzer4200ASCS_SMUs (w : world E)
  : outcome unit * world E * list printed :=
  match LGAD_IV.__init__ T None w with
  | (Ok lgad_iv, _) =>
      match ParameterAnalyzer4200ASCS_SMUs_body lgad_iv with
      | (r, s', out) => (r, wld s', out)
      end
  | (Raise e, w') => (Raise e, w', [])
  end.

(** [if __name__ == "__main__":] of GPIB.py. *)
Definition GPIB_main (w : world E)
  : outcome unit * world E * list printed :=
  let banner :=
    [PrintLine "GPIB Communication Test"; PrintLine (str_mul "=" 30)] in
  match test_connection w with
  | (Ok _, w', out) => (Ok tt, w', banner ++ out)
  | (Raise e, w', out) =>
      (Ok tt, w',
       banner ++ out ++
       [PrintError "Error in example: " e;
        PrintLine (String.append LF "Note: Make sure you have:");
        PrintLine "1. PyVISA installed: pip install pyvisa";
        PrintLine "2. VISA runtime installed (NI-VISA or compatible)";
        PrintLine "3. GPIB instruments connected and powered on"])
  end.

(** [if __name__ == "__main__":] of LGAD_IV.py. *)
Definition LGAD_IV_main (w : world E)
  : outcome unit * world E * list printed :=
  let banner :=
    [PrintLine "LGAD IV Characterization Test";
     PrintLine (str_mul "=" 30)] in
  match ParameterAnalyzer4200ASCS_SMUs w with
  | (Ok _, w', out) => (Ok tt, w', banner ++ out)
  | (Raise e, w', out) =>
      (Ok tt, w',
       banner ++ out ++
       [PrintError "Error in LGAD IV test: " e;
        PrintLine (String.append LF "Note: Make sure you have:");
        PrintLine "- A GPIB instrument connected and powered on";
        PrintLine
          "- The correct VISA library installed and configured"])
  end.

End Scripts.

(** ** Sequences of method calls *)

Inductive method : Type :=
| ListResources
| Connect (resource_name : string) (alias : option string)
| Disconnect (identifier : string)
| SendCommand (identifier command : string) (delay : Z)
| QueryCommand (identifier command : string) (delay : Z)
| ReadResponse (identifier : string)
| GetIdentification (identifier : string)
| ResetInstrument (identifier : string)
| ClearInstrument (identifier : string)
| WaitForCompletion (identifier : string) (timeout : Z)
| CloseAllConnections.

(** The state a method call leaves (its result is dropped). *)
Definition after_method {E : Type} (T : Transport E) (m : method)
    (s : state E) : state E :=
  match m with
  | ListResources => snd (list_resources T s)
  | Connect resource_name alias =>
      snd (connect_instrument T resource_name alias s)
  | Disconnect k => snd (disconnect_instrument T k s)
  | SendCommand k command delay => snd (send_command T k command delay s)
  | QueryCommand k command delay => snd (query_command T k command delay s)
  | ReadResponse k => snd (read_response T k s)
  | GetIdentification k => snd (get_identification T k s)
  | ResetInstrument k => snd (reset_instrument T k s)
  | ClearInstrument k => snd (clear_instrument T k s)
  | WaitForCompletion k timeout =>
      match wait_for_completion T (wait_fuel timeout) k timeout s with
      | Some (_, s') => s'
      | None => s
      end
  | CloseAllConnections => snd (close_all_connections T s)
  end.

Definition after_methods {E : Type} (T : Transport E) (ms : list method)
    (s : state E) : state E :=
  fold_left (fun s0 m => after_method T m s0) ms s.

(** ** More ways to read a trace *)

(** The handle a call is made on. *)
Definition ev_handle (ev : event) : option handle :=
  match ev with
  | EvSetTimeout h _ _ | EvSetWriteTermination h _ _
  | EvSetReadTermination h _ _ | EvWrite h _ _ | EvQuery h _ _
  | EvRead h _ | EvClose h _ => Some h
  | _ => None
  end.

(** The call is on the handle [h], or is a sleep. *)
Definition only_on (h : handle) (ev : event) : bool :=
  match ev with
  | EvSleep _ => true
  | _ => match ev_handle ev with
         | Some h' => Nat.eqb h h'
         | None => false
         end
  end.

Definition is_sleep (ev : event) : bool :=
  match ev with EvSleep _ => true | _ => false end.

(** The handles a trace saw opened. *)
Fixpoint opened (evs : list event) : list handle :=
  match evs with
  | [] => []
  | EvOpenResource _ (Ok h) :: r => h :: opened r
  | _ :: r => opened r
  end.

(** The handles a trace saw closed (the close returned). *)
Fixpoint closed (evs : list event) : list handle :=
  match evs with
  | [] => []
  | EvClose h (Ok _) :: r => h :: closed r
  | _ :: r => closed r
  end.

(** The time a trace slept, in ms. *)
Fixpoint slept (evs : list event) : Z :=
  match evs with
  | [] => 0
  | EvSleep ms :: r => ms + slept r
  | _ :: r => slept r
  end.

(** [s] begins, or ends, with a whitespace character. *)
Definition starts_with_space (s : string) : bool :=
  match list_ascii_of_string s with
  | c :: _ => isspace c
  | [] => false
  end.

Definition ends_with_space (s : string) : bool :=
  match rev (list_ascii_of_string s) with
  | c :: _ => isspace c
  | [] => false
  end.

(** ** A second bench, on which calls can fail and take time

    Every call listed in [fails] raises; every call takes [cost] ms;
    [list_resources] answers [resources]; queries and reads answer
    [answer]. *)
Module Rig.

Inductive op : Type :=
| OpResourceManager | OpListResources | OpOpenResource | OpSetTimeout
| OpSetWriteTermination | OpSetReadTermination | OpWrite | OpQuery
| OpRead | OpClose | OpRmClose.

Definition op_code (o : op) : nat :=
  match o with
  | OpResourceManager => 0 | OpListResources => 1 | OpOpenResource => 2
  | OpSetTimeout => 3 | OpSetWriteTermination => 4
  | OpSetReadTermination => 5 | OpWrite => 6 | OpQuery => 7 | OpRead => 8
  | OpClose => 9 | OpRmClose => 10
  end%nat.

Record t : Type := mk {
  next_handle : handle;
  fails : list op;
  resources : list string;
  answer : string;
  cost : N
}.

Definition failing (o : op) (b : t) : bool :=
  existsb (fun o' => Nat.eqb (op_code o) (op_code o')) (fails b).

Definition reply_of {A : Type} (o : op) (a : A) (b : t) : reply t A :=
  if failing o b
  then (Raise (VisaIOError (-1073807343)), cost b, b)
  else (Ok a, cost b, b).

Definition open_resource (b : t) : reply t handle :=
  if failing OpOpenResource b
  then (Raise (VisaIOError (-1073807343)), cost b, b)
  else (Ok (next_handle b), cost b,
        mk (S (next_handle b)) (fails b) (resources b) (answer b) (cost b)).

Definition visa : Transport t := {|
  visa_ResourceManager := fun _ => reply_of OpResourceManager tt;
  visa_list_resources := fun b => reply_of OpListResources (resources b) b;
  visa_open_resource := fun _ => open_resource;
  visa_set_timeout := fun _ _ => reply_of OpSetTimeout tt;
  visa_set_write_termination := fun _ _ => reply_of OpSetWriteTermination tt;
  visa_set_read_termination := fun _ _ => reply_of OpSetReadTermination tt;
  visa_write := fun _ _ => reply_of OpWrite tt;
  visa_query := fun _ _ b => reply_of OpQuery (answer b) b;
  visa_read := fun _ b => reply_of OpRead (answer b) b;
  visa_close := fun _ => reply_of OpClose tt;
  visa_rm_close := reply_of OpRmClose tt
|}.

(** The world before any controller exists. *)
Definition world0 (bad : list op) (res : list string) (ans : string)
    (ms : N) : world t :=
  mkWorld (mk 0%nat bad res ans ms) 0 [] [].

(** A controller holding [d]. *)
Definition start (d : Dict.t) (n : handle) (bad : list op)
    (ans : string) (ms : N) : state t :=
  mkState d (mkWorld (mk n bad [] ans ms) 0 [] []).

End Rig.

(** The calls of a [connect_instrument] that failed, by the call that
    raised [x]. *)
Definition connect_failure (resource_name : string) (x : exn)
    (evs : list event) : Prop :=
  evs = [EvOpenResource resource_name (Raise x)] \/
  exists h,
    evs = [EvOpenResource resource_name (Ok h);
           EvSetTimeout h 10000 (Raise x)] \/
    evs = [EvOpenResource resource_name (Ok h);
           EvSetTimeout h 10000 (Ok tt);
           EvSetWriteTermination h LF (Raise x)] \/
    evs = [EvOpenResource resource_name (Ok h);
           EvSetTimeout h 10000 (Ok tt);
           EvSetWriteTermination h LF (Ok tt);
           EvSetReadTermination h LF (Raise x)].

(** The list does not begin with a whitespace character. *)
Definition head_ok (l : list ascii) : Prop :=
  match l with [] => True | c :: _ => isspace c = false end.

(** A call that [wait_for_completion identifier] may make: a 0.1 s sleep,
    or an [*OPC?] query on the handle registered under the key. *)
Definition is_poll_event (d : Dict.t) (identifier : string) (ev : event)
  : bool :=
  match ev with
  | EvSleep ms => ms =? 100
  | EvQuery h command _ =>
      String.eqb command "*OPC?" &&
      match Dict.get identifier d with
      | Some h' => Nat.eqb h h'
      | None => false
      end
  | _ => false
  end.

(** The methods that assign to or delete from [self.instruments]. *)
Definition mutates (m : method) : bool :=
  match m with
  | Connect _ _ | Disconnect _ | CloseAllConnections => true
  | _ => false
  end.

(** The two ways the closing part of a script can go. *)
Definition closes_of (h : handle) (evs : list event) : Prop :=
  evs = [EvClose h (Ok tt)] \/
  exists x r2, evs = [EvClose h (Raise x); EvClose h r2].

(** The registry holds live handles: each key once, each handle once, every
    handle one that the trace saw opened and did not see closed (and only
    opened handles were closed). *)
Definition live_registry {E : Type} (s : state E) : Prop :=
  Dict.wf (instruments s) /\
  NoDup (Dict.values (instruments s)) /\
  incl (Dict.values (instruments s)) (opened (trace (wld s))) /\
  incl (closed (trace (wld s))) (opened (trace (wld s))) /\
  forall h, In h (Dict.values (instruments s)) ->
            ~ In h (closed (trace (wld s))).



(** * Properties *)

(** ** [str.strip] on instrument answers *)

Example strip_answer :
  strip (String " " (String "1" (String (ascii_of_nat 13) LF))) = "1".
Proof. reflexivity. Qed.

Example strip_keeps_inner_space : strip " a b " = "a b".
Proof. reflexivity. Qed.

Example strip_blank : strip "  " = "".
Proof. reflexivity. Qed.

Lemma lstrip_chars_no_leading_space (l : list ascii) :
  match lstrip_chars l with
  | [] => True
  | c :: _ => isspace c = false
  end.
Proof.
  induction l as [|c r IH]; simpl; [exact I|].
  destruct (isspace c) eqn:Hc; [exact IH|exact Hc].
Qed.

(** ** The dictionary *)
Module DictFacts.

Import Dict.

Lemma contains_get (k : string) (d : t) :
  contains k d = true <-> exists h, get k d = Some h.
Proof.
  unfold contains. destruct (get k d) as [h|]; split.
  - intros _. now exists h.
  - reflexivity.
  - discriminate.
  - intros [h Hh]. discriminate.
Qed.

Lemma not_contains_get (k : string) (d : t) :
  contains k d = false <-> get k d = None.
Proof.
  unfold contains. destruct (get k d); split; congruence.
Qed.

Lemma get_in_keys (k : string) (d : t) (h : handle) :
  get k d = Some h -> In k (keys d).
Proof.
  induction d as [|[k' v] r IH]; simpl; [discriminate|].
  destruct (String.eqb_spec k k') as [->|Hne]; auto.
Qed.

Lemma get_not_in_keys (k : string) (d : t) :
  ~ In k (keys d) -> get k d = None.
Proof.
  intros Hn. destruct (get k d) as [h|] eqn:Hg; [|reflexivity].
  exfalso. eauto using get_in_keys.
Qed.

Lemma get_set_same (k : string) (v : handle) (d : t) :
  get k (set k v d) = Some v.
Proof.
  induction d as [|[k' v'] r IH]; simpl.
  - now rewrite String.eqb_refl.
  - destruct (String.eqb_spec k k') as [->|Hne]; simpl.
    + now rewrite String.eqb_refl.
    + destruct (String.eqb_spec k k'); [contradiction|exact IH].
Qed.

Lemma get_set_other (k k' : string) (v : handle) (d : t) :
  k' <> k -> get k' (set k v d) = get k' d.
Proof.
  intros Hne. induction d as [|[k0 v0] r IH]; simpl.
  - destruct (String.eqb_spec k' k); [contradiction|reflexivity].
  - destruct (String.eqb_spec k k0) as [->|Hk]; simpl.
    + destruct (String.eqb_spec k' k0); [contradiction|reflexivity].
    + destruct (String.eqb_spec k' k0); [reflexivity|exact IH].
Qed.

(** Assigning to a key that is present moves no key. *)
Lemma keys_set_present (k : string) (v : handle) (d : t) :
  contains k d = true -> keys (set k v d) = keys d.
Proof.
  unfold contains. induction d as [|[k' v'] r IH]; simpl; [discriminate|].
  destruct (String.eqb_spec k k') as [->|Hne]; simpl; [reflexivity|].
  intros H. now rewrite IH.
Qed.

(** Assigning to a new key appends it. *)
Lemma set_absent (k : string) (v : handle) (d : t) :
  contains k d = false -> set k v d = d ++ [(k, v)].
Proof.
  unfold contains. induction d as [|[k' v'] r IH]; simpl; [reflexivity|].
  destruct (String.eqb_spec k k') as [->|Hne]; [discriminate|].
  intros H. now rewrite IH.
Qed.

Lemma in_keys_set (k k' : string) (v : handle) (d : t) :
  In k' (keys (set k v d)) -> k' = k \/ In k' (keys d).
Proof.
  induction d as [|[k0 v0] r IH]; simpl.
  - intros [<-|[]]; auto.
  - destruct (String.eqb_spec k k0) as [->|Hk]; simpl; intuition.
Qed.

Lemma wf_set (k : string) (v : handle) (d : t) :
  wf d -> wf (set k v d).
Proof.
  unfold wf. induction d as [|[k0 v0] r IH]; simpl; intros Hd.
  - constructor; [intros []|constructor].
  - inversion Hd as [|? ? Hnin Hr]; subst.
    destruct (String.eqb_spec k k0) as [->|Hk]; simpl.
    + now constructor.
    + constructor; [|auto].
      intros Hin. apply in_keys_set in Hin. destruct Hin; congruence.
Qed.

Lemma in_keys_del (k k' : string) (d : t) :
  In k' (keys (del k d)) -> In k' (keys d).
Proof.
  induction d as [|[k0 v0] r IH]; simpl; [tauto|].
  destruct (String.eqb_spec k k0) as [->|Hk]; simpl; intuition.
Qed.

Lemma wf_del (k : string) (d : t) : wf d -> wf (del k d).
Proof.
  unfold wf. induction d as [|[k0 v0] r IH]; simpl; intros Hd; [exact Hd|].
  inversion Hd as [|? ? Hnin Hr]; subst.
  destruct (String.eqb_spec k k0) as [->|Hk]; simpl; [exact Hr|].
  constructor; [|auto]. intros Hin. apply Hnin. eauto using in_keys_del.
Qed.

Lemma get_del_same (k : string) (d : t) : wf d -> get k (del k d) = None.
Proof.
  unfold wf. induction d as [|[k0 v0] r IH]; simpl; intros Hd; [reflexivity|].
  inversion Hd as [|? ? Hnin Hr]; subst.
  destruct (String.eqb_spec k k0) as [->|Hk]; simpl.
  - now apply get_not_in_keys.
  - destruct (String.eqb_spec k k0); [contradiction|auto].
Qed.

Lemma get_del_other (k k' : string) (d : t) :
  k' <> k -> get k' (del k d) = get k' d.
Proof.
  intros Hne. induction d as [|[k0 v0] r IH]; simpl; [reflexivity|].
  destruct (String.eqb_spec k k0) as [->|Hk]; simpl.
  - destruct (String.eqb_spec k' k0); [contradiction|reflexivity].
  - destruct (String.eqb_spec k' k0); [reflexivity|exact IH].
Qed.

Lemma del_absent (k : string) (d : t) : get k d = None -> del k d = d.
Proof.
  induction d as [|[k0 v0] r IH]; simpl; [reflexivity|].
  destruct (String.eqb_spec k k0); [discriminate|].
  intros H. now rewrite IH.
Qed.

(** Deleting what was just assigned: the entry is gone, the rest is as it
    was before the assignment (minus an older entry under the key). *)
Lemma del_set (k : string) (v : handle) (d : t) :
  del k (set k v d) = del k d.
Proof.
  induction d as [|[k0 v0] r IH]; simpl.
  - now rewrite String.eqb_refl.
  - destruct (String.eqb_spec k k0) as [->|Hk]; simpl.
    + now rewrite String.eqb_refl.
    + destruct (String.eqb_spec k k0); [contradiction|now rewrite IH].
Qed.

(** In a dictionary [front ++ (k, h) :: back] the key [k] is looked up
    and deleted in the middle. *)
Lemma get_middle (front back : t) (k : string) (h : handle) :
  ~ In k (keys front) -> get k (front ++ (k, h) :: back) = Some h.
Proof.
  induction front as [|[k0 v0] r IH]; simpl; intros Hn.
  - now rewrite String.eqb_refl.
  - destruct (String.eqb_spec k k0) as [->|Hk]; [tauto|]. apply IH. tauto.
Qed.

Lemma del_middle (front back : t) (k : string) (h : handle) :
  ~ In k (keys front) -> del k (front ++ (k, h) :: back) = front ++ back.
Proof.
  induction front as [|[k0 v0] r IH]; simpl; intros Hn.
  - now rewrite String.eqb_refl.
  - destruct (String.eqb_spec k k0) as [->|Hk]; [tauto|].
    rewrite IH; tauto.
Qed.

Lemma wf_empty : wf empty.
Proof. constructor. Qed.

End DictFacts.

(** ** Traces *)

Lemma new_events_app {E : Type} (s s' : state E) (evs : list event) :
  trace (wld s') = trace (wld s) ++ evs -> new_events s s' = evs.
Proof.
  unfold new_events. intros ->.
  rewrite skipn_app, skipn_all, Nat.sub_diag. reflexivity.
Qed.

Lemma new_events_same {E : Type} (s s' : state E) :
  trace (wld s') = trace (wld s) -> new_events s s' = [].
Proof.
  intros H. apply new_events_app. now rewrite app_nil_r.
Qed.

Lemma count_app (p : event -> bool) (l1 l2 : list event) :
  count p (l1 ++ l2) = (count p l1 + count p l2)%nat.
Proof. unfold count. now rewrite filter_app, length_app. Qed.

(** ** Sleeping *)


(** [time.sleep] either advances the clock by the duration, or raises and
    leaves the world alone. *)
Lemma sleep_world_cases {E : Type} (ms : Z) (w : world E) :
  sleep_world ms w
  = if sleepable ms
    then (Ok tt,
          mkWorld (env w) (clock w + ms) (trace w ++ [EvSleep ms]) (logs w))
    else (Raise (sleep_error ms), w).
Proof.
  unfold sleep_world, sleepable, sleep_error.
  destruct (Z.ltb_spec ms (- sleep_max));
    destruct (Z.ltb_spec sleep_max ms);
    destruct (Z.ltb_spec ms 0);
    destruct (Z.leb_spec 0 ms);
    destruct (Z.leb_spec ms sleep_max); simpl; try reflexivity;
    unfold sleep_max in *; lia.
Qed.

(** ** Running the methods: one equation per path through each body *)

Ltac unfold_py :=
  unfold list_resources, connect_instrument, disconnect_instrument,
    send_command, query_command, read_response, try_except, bind, ret,
    transport, logger, time_sleep, in_world, transport_call, log_world,
    time_time, instruments_contains, instruments_getitem,
    instruments_setitem, instruments_delitem, instruments_keys.

Section Equations.

Context {E : Type} (T : Transport E).

Lemma disconnect_absent (k : string) (s : state E) :
  Dict.get k (instruments s) = None ->
  disconnect_instrument T k s
  = (Ok false, mkState (instruments s) (log_world WARNING (wld s))).
Proof.
  intros Hg. unfold_py. unfold Dict.contains. simpl.
  rewrite Hg. reflexivity.
Qed.

Lemma disconnect_closed (k : string) (h : handle) (s : state E)
    (dt : N) (e' : E) :
  Dict.get k (instruments s) = Some h ->
  visa_close T h (env (wld s)) = (Ok tt, dt, e') ->
  disconnect_instrument T k s
  = (Ok true,
     mkState (Dict.del k (instruments s))
             (after_call (wld s) (EvClose h (Ok tt)) dt e' INFO)).
Proof.
  intros Hg Hc. unfold_py. unfold Dict.contains. simpl.
  repeat (rewrite ?Hg, ?Hc; simpl). reflexivity.
Qed.

Lemma disconnect_close_raises (k : string) (h : handle) (s : state E)
    (x : exn) (dt : N) (e' : E) :
  Dict.get k (instruments s) = Some h ->
  visa_close T h (env (wld s)) = (Raise x, dt, e') ->
  disconnect_instrument T k s
  = (Ok false,
     mkState (instruments s)
             (after_call (wld s) (EvClose h (Raise x)) dt e' ERROR)).
Proof.
  intros Hg Hc. unfold_py. unfold Dict.contains. simpl.
  repeat (rewrite ?Hg, ?Hc; simpl). reflexivity.
Qed.

Lemma send_absent (k command : string) (delay : Z) (s : state E) :
  Dict.get k (instruments s) = None ->
  send_command T k command delay s
  = (Ok false, mkState (instruments s) (log_world ERROR (wld s))).
Proof.
  intros Hg. unfold_py. unfold Dict.contains. simpl.
  rewrite Hg. reflexivity.
Qed.

Lemma query_absent (k command : string) (delay : Z) (s : state E) :
  Dict.get k (instruments s) = None ->
  query_command T k command delay s
  = (Ok None, mkState (instruments s) (log_world ERROR (wld s))).
Proof.
  intros Hg. unfold_py. unfold Dict.contains. simpl.
  rewrite Hg. reflexivity.
Qed.

Lemma read_absent (k : string) (s : state E) :
  Dict.get k (instruments s) = None ->
  read_response T k s
  = (Ok None, mkState (instruments s) (log_world ERROR (wld s))).
Proof.
  intros Hg. unfold_py. unfold Dict.contains. simpl.
  rewrite Hg. reflexivity.
Qed.

(** [query_command] on a registered handle, by what the query answers. *)
Lemma query_answered (k command : string) (delay : Z) (h : handle)
    (s : state E) (raw : string) (dt : N) (e' : E) :
  Dict.get k (instruments s) = Some h ->
  visa_query T h command (env (wld s)) = (Ok raw, dt, e') ->
  sleepable delay = true ->
  query_command T k command delay s
  = (Ok (Some (strip raw)),
     mkState (instruments s)
       (mkWorld e' (clock (wld s) + Z.of_N dt + delay)
          (trace (wld s) ++ [EvQuery h command (Ok raw); EvSleep delay])
          (logs (wld s) ++ [DEBUG]))).
Proof.
  intros Hg Hq Hd. unfold_py. unfold Dict.contains. simpl.
  repeat (rewrite ?Hg, ?Hq; simpl).
  rewrite ?sleep_world_cases, Hd. simpl.
  rewrite <- app_assoc. reflexivity.
Qed.

Lemma query_raises (k command : string) (delay : Z) (h : handle)
    (s : state E) (x : exn) (dt : N) (e' : E) :
  Dict.get k (instruments s) = Some h ->
  visa_query T h command (env (wld s)) = (Raise x, dt, e') ->
  query_command T k command delay s
  = (Ok None,
     mkState (instruments s)
       (after_call (wld s) (EvQuery h command (Raise x)) dt e' ERROR)).
Proof.
  intros Hg Hq. unfold_py. unfold Dict.contains. simpl.
  repeat (rewrite ?Hg, ?Hq; simpl). reflexivity.
Qed.

(** [connect_instrument] returns [True] exactly along the path on which
    the open and the three settings succeed; the handle then sits under
    [alias if alias else resource_name]; otherwise the registry is as it
    was.  No path closes anything. *)
Lemma connect_cases (resource_name : string) (alias : option string)
    (s : state E) :
  let r := connect_instrument T resource_name alias s in
  (exists h,
      fst r = Ok true /\
      instruments (snd r)
      = Dict.set (or_else alias resource_name) h (instruments s) /\
      trace (wld (snd r))
      = trace (wld s) ++ connect_events resource_name h)
  \/
  (exists evs,
      fst r = Ok false /\
      instruments (snd r) = instruments s /\
      trace (wld (snd r)) = trace (wld s) ++ evs /\
      existsb ev_raised evs = true /\
      forall h, close_calls h evs = 0%nat).
Proof.
  unfold_py. simpl.
  destruct (visa_open_resource T resource_name (env (wld s)))
    as [[[h|x] dt0] e0] eqn:H0; simpl.
  2:{ right. eexists. repeat split; simpl; eauto. }
  destruct (visa_set_timeout T h 10000 e0) as [[[[]|x] dt1] e1] eqn:H1;
    simpl.
  2:{ right. eexists. repeat split; simpl.
      - rewrite <- app_assoc. reflexivity.
      - reflexivity.
      - reflexivity. }
  destruct (visa_set_write_termination T h LF e1)
    as [[[[]|x] dt2] e2] eqn:H2; simpl.
  2:{ right. eexists. repeat split; simpl.
      - rewrite <- !app_assoc. reflexivity.
      - reflexivity.
      - reflexivity. }
  destruct (visa_set_read_termination T h LF e2)
    as [[[[]|x] dt3] e3] eqn:H3; simpl.
  2:{ right. eexists. repeat split; simpl.
      - rewrite <- !app_assoc. reflexivity.
      - reflexivity.
      - reflexivity. }
  left. exists h. repeat split; simpl.
  rewrite <- !app_assoc. reflexivity.
Qed.

End Equations.

(** ** Unknown keys *)

(** C3.  For a key that is not in the registry, [send_command] and
    [disconnect_instrument] return [False], [query_command] and
    [read_response] return [None]; the registry, the environment, the clock
    and the trace are as before: nothing was written, queried, read or
    closed, on any handle. *)
Theorem absent_key_sentinels {E : Type} (T : Transport E) (s : state E)
    (k command : string) (delay : Z) :
  Dict.contains k (instruments s) = false ->
  (fst (send_command T k command delay s) = Ok false /\
   untouched s (snd (send_command T k command delay s))) /\
  (fst (disconnect_instrument T k s) = Ok false /\
   untouched s (snd (disconnect_instrument T k s))) /\
  (fst (query_command T k command delay s) = Ok None /\
   untouched s (snd (query_command T k command delay s))) /\
  (fst (read_response T k s) = Ok None /\
   untouched s (snd (read_response T k s))).
Proof.
  intros Hk. apply DictFacts.not_contains_get in Hk.
  rewrite send_absent, disconnect_absent, query_absent, read_absent by exact Hk.
  unfold untouched; simpl. repeat split.
Qed.

Lemma absent_key_sentinels_witness :
  let s := Bench.start Bench.three 3%nat [] "0" in
  (fst (send_command Bench.visa "dmm" "*RST" 100 s) = Ok false /\
   untouched s (snd (send_command Bench.visa "dmm" "*RST" 100 s))) /\
  (fst (disconnect_instrument Bench.visa "dmm" s) = Ok false /\
   untouched s (snd (disconnect_instrument Bench.visa "dmm" s))) /\
  (fst (query_command Bench.visa "dmm" "*RST" 100 s) = Ok None /\
   untouched s (snd (query_command Bench.visa "dmm" "*RST" 100 s))) /\
  (fst (read_response Bench.visa "dmm" s) = Ok None /\
   untouched s (snd (read_response Bench.visa "dmm" s))).
Proof.
  exact (absent_key_sentinels Bench.visa (Bench.start Bench.three 3%nat [] "0")
           "dmm" "*RST" 100 eq_refl).
Defined.

(** ** Disconnecting *)

(** C7.  [disconnect_instrument key]: with [key] present and a close that
    succeeds, the handle is closed (one close call, on that handle), the
    entry is removed and the result is [True]; with [key] absent the result
    is [False]; when the close raises, the result is [False] and the
    registry is unchanged, so the entry for [key] is still there. *)
Theorem disconnect_instrument_spec {E : Type} (T : Transport E)
    (s : state E) (k : string) :
  Dict.wf (instruments s) ->
  let r := disconnect_instrument T k s in
  match Dict.get k (instruments s) with
  | None =>
      fst r = Ok false /\ instruments (snd r) = instruments s /\
      new_events s (snd r) = []
  | Some h =>
      match visa_close T h (env (wld s)) with
      | (Ok _, _, _) =>
          fst r = Ok true /\
          instruments (snd r) = Dict.del k (instruments s) /\
          Dict.contains k (instruments (snd r)) = false /\
          new_events s (snd r) = [EvClose h (Ok tt)]
      | (Raise x, _, _) =>
          fst r = Ok false /\
          instruments (snd r) = instruments s /\
          Dict.get k (instruments (snd r)) = Some h /\
          new_events s (snd r) = [EvClose h (Raise x)]
      end
  end.
Proof.
  intros Hwf r. subst r.
  destruct (Dict.get k (instruments s)) as [h|] eqn:Hg.
  - destruct (visa_close T h (env (wld s))) as [[[[]|x] dt] e'] eqn:Hc.
    + rewrite (disconnect_closed T k h s dt e' Hg Hc). simpl.
      repeat split.
      * apply DictFacts.not_contains_get. now apply DictFacts.get_del_same.
      * now apply new_events_app.
    + rewrite (disconnect_close_raises T k h s x dt e' Hg Hc). simpl.
      repeat split; [exact Hg|]. now apply new_events_app.
  - rewrite (disconnect_absent T k s Hg). simpl. repeat split.
    now apply new_events_same.
Qed.

Lemma disconnect_instrument_spec_witness :
  let s := Bench.start Bench.three 3%nat [1%nat] "0" in
  (fst (disconnect_instrument Bench.visa "smu1" s) = Ok true /\
   Dict.contains "smu1"
     (instruments (snd (disconnect_instrument Bench.visa "smu1" s))) = false)
  /\
  (fst (disconnect_instrument Bench.visa "smu2" s) = Ok false /\
   Dict.get "smu2"
     (instruments (snd (disconnect_instrument Bench.visa "smu2" s)))
   = Some 1%nat)
  /\
  fst (disconnect_instrument Bench.visa "dmm" s) = Ok false.
Proof.
  assert (Hwf : Dict.wf Bench.three).
  { unfold Dict.wf, Bench.three; simpl.
    repeat constructor; simpl; intuition discriminate. }
  pose proof (disconnect_instrument_spec Bench.visa
                (Bench.start Bench.three 3%nat [1%nat] "0") "smu1" Hwf) as H1.
  pose proof (disconnect_instrument_spec Bench.visa
                (Bench.start Bench.three 3%nat [1%nat] "0") "smu2" Hwf) as H2.
  pose proof (disconnect_instrument_spec Bench.visa
                (Bench.start Bench.three 3%nat [1%nat] "0") "dmm" Hwf) as H3.
  simpl in H1, H2, H3. intros s. subst s.
  repeat split; tauto.
Defined.

(** ** Connecting *)

(** C9.  An empty alias is falsy: [connect_instrument address ""] runs as
    [connect_instrument address] with no alias does, and when it succeeds
    the handle it opened is registered under [address]; the entry under the
    empty-string key (for a non-empty [address]) is what it was. *)
Theorem connect_empty_alias {E : Type} (T : Transport E) (s : state E)
    (address : string) :
  let r := connect_instrument T address (Some "") s in
  r = connect_instrument T address None s /\
  (fst r = Ok true ->
   exists h,
     new_events s (snd r) = connect_events address h /\
     instruments (snd r) = Dict.set address h (instruments s) /\
     Dict.get address (instruments (snd r)) = Some h /\
     (address <> "" ->
      Dict.get "" (instruments (snd r)) = Dict.get "" (instruments s))).
Proof.
  intros r. subst r. split; [reflexivity|].
  intros Hok.
  destruct (connect_cases T address (Some "") s)
    as [(h & _ & Hi & Ht)|(evs & Hr & _)]; [|congruence].
  simpl in Hi. exists h. repeat split.
  - now apply new_events_app.
  - exact Hi.
  - rewrite Hi. apply DictFacts.get_set_same.
  - intros Hne. rewrite Hi. apply DictFacts.get_set_other.
    congruence.
Qed.

Lemma connect_empty_alias_witness :
  let s := Bench.start Bench.three 3%nat [] "0" in
  let r := connect_instrument Bench.visa "GPIB0::10::INSTR" (Some "") s in
  r = connect_instrument Bench.visa "GPIB0::10::INSTR" None s /\
  Dict.get "GPIB0::10::INSTR" (instruments (snd r)) = Some 3%nat /\
  Dict.get "" (instruments (snd r)) = None.
Proof.
  destruct (connect_empty_alias Bench.visa
              (Bench.start Bench.three 3%nat [] "0") "GPIB0::10::INSTR")
    as [He H].
  destruct (H eq_refl) as (h & Hev & _ & Hg & Hempty).
  injection Hev as <-.
  split; [exact He|]. split; [exact Hg|].
  rewrite Hempty; [reflexivity|discriminate].
Defined.

(** C4, as the code has it.  For a NON-EMPTY alias [k] that is already in
    the registry, a successful [connect_instrument address2 k] makes exactly
    the four calls that open and configure the new handle, leaves that
    handle under [k] (every other key, and the order of the keys, is as
    before), and makes no close call on any handle, so the handle that was
    under [k] is not closed. *)
Theorem connect_replaces_without_closing {E : Type} (T : Transport E)
    (s : state E) (address2 k : string) :
  str_truthy k = true ->
  Dict.contains k (instruments s) = true ->
  fst (connect_instrument T address2 (Some k) s) = Ok true ->
  let s' := snd (connect_instrument T address2 (Some k) s) in
  exists h,
    new_events s s' = connect_events address2 h /\
    Dict.get k (instruments s') = Some h /\
    Dict.keys (instruments s') = Dict.keys (instruments s) /\
    (forall k', k' <> k ->
                Dict.get k' (instruments s') = Dict.get k' (instruments s)) /\
    (forall h0, close_calls h0 (new_events s s') = 0%nat).
Proof.
  intros Hk Hin Hok s'. subst s'.
  destruct (connect_cases T address2 (Some k) s)
    as [(h & _ & Hi & Ht)|(evs & Hr & _)]; [|congruence].
  simpl in Hi. rewrite Hk in Hi.
  exists h. rewrite (new_events_app _ _ _ Ht), Hi. repeat split.
  - apply DictFacts.get_set_same.
  - now apply DictFacts.keys_set_present.
  - intros k' Hne. now apply DictFacts.get_set_other.
Qed.

Lemma connect_replaces_without_closing_witness :
  let s := Bench.start Bench.three 3%nat [] "0" in
  let s' := snd (connect_instrument Bench.visa "GPIB0::11::INSTR"
                   (Some "smu2") s) in
  Dict.get "smu2" (instruments s) = Some 1%nat /\
  Dict.get "smu2" (instruments s') = Some 3%nat /\
  close_calls 1%nat (new_events s s') = 0%nat.
Proof.
  destruct (connect_replaces_without_closing Bench.visa
              (Bench.start Bench.three 3%nat [] "0")
              "GPIB0::11::INSTR" "smu2" eq_refl eq_refl eq_refl)
    as (h & Hev & Hg & _ & _ & Hc).
  injection Hev as <-.
  split; [reflexivity|]. split; [exact Hg|apply Hc].
Defined.

(** C4 as stated fails for the empty alias.  A controller that connected
    the address [""] holds that session under the key [""]; then
    [connect_instrument "GPIB0::11::INSTR" ""] succeeds and opens handle 1,
    yet the entry under [""] is still the old handle 0: the new handle went
    under the address. *)
Lemma empty_alias_is_not_replaced :
  let s := snd (connect_instrument Bench.visa "" None
                  (Bench.start Dict.empty 0%nat [] "0")) in
  let r := connect_instrument Bench.visa "GPIB0::11::INSTR" (Some "") s in
  instruments s = [("", 0%nat)] /\
  Dict.contains "" (instruments s) = true /\
  fst r = Ok true /\
  new_events s (snd r) = connect_events "GPIB0::11::INSTR" 1%nat /\
  instruments (snd r) = [("", 0%nat); ("GPIB0::11::INSTR", 1%nat)] /\
  Dict.get "" (instruments (snd r)) <> Some 1%nat.
Proof.
  vm_compute. repeat split; discriminate.
Qed.

(** C5.  For a non-empty alias, when [connect_instrument address alias] and
    the following [disconnect_instrument alias] both succeed, the registry
    ends without [alias] (and is the one before the connect when [alias] was
    new), and the calls made are the open and configuration of one handle
    followed by a single close, of that handle. *)
Theorem connect_then_disconnect {E : Type} (T : Transport E)
    (s s1 s2 : state E) (address alias : string) :
  str_truthy alias = true ->
  Dict.wf (instruments s) ->
  connect_instrument T address (Some alias) s = (Ok true, s1) ->
  disconnect_instrument T alias s1 = (Ok true, s2) ->
  Dict.contains alias (instruments s2) = false /\
  instruments s2 = Dict.del alias (instruments s) /\
  (Dict.contains alias (instruments s) = false ->
   instruments s2 = instruments s) /\
  exists h,
    new_events s s2 = connect_events address h ++ [EvClose h (Ok tt)] /\
    close_calls h (new_events s s2) = 1%nat /\
    forall h', h' <> h -> close_calls h' (new_events s s2) = 0%nat.
Proof.
  intros Ha Hwf Hc Hd.
  destruct (connect_cases T address (Some alias) s)
    as [(h & _ & Hi & Ht)|(evs & Hr & _)];
    rewrite Hc in *; simpl in *; [|congruence].
  rewrite Ha in Hi.
  assert (Hg : Dict.get alias (instruments s1) = Some h)
    by (rewrite Hi; apply DictFacts.get_set_same).
  destruct (visa_close T h (env (wld s1))) as [[[[]|x] dt] e'] eqn:Hcl.
  2:{ rewrite (disconnect_close_raises T alias h s1 x dt e' Hg Hcl) in Hd.
      discriminate. }
  rewrite (disconnect_closed T alias h s1 dt e' Hg Hcl) in Hd.
  injection Hd as <-. simpl.
  assert (Hdel : Dict.del alias (instruments s1)
                 = Dict.del alias (instruments s))
    by (rewrite Hi; apply DictFacts.del_set).
  rewrite Hdel. repeat split.
  - apply DictFacts.not_contains_get. now apply DictFacts.get_del_same.
  - intros Habs. apply DictFacts.del_absent.
    now apply DictFacts.not_contains_get.
  - exists h.
    assert (Hev : new_events s
                    (mkState (Dict.del alias (instruments s))
                       (after_call (wld s1) (EvClose h (Ok tt)) dt e' INFO))
                  = connect_events address h ++ [EvClose h (Ok tt)]).
    { apply new_events_app. simpl. rewrite Ht, <- app_assoc. reflexivity. }
    rewrite Hev. repeat split.
    + unfold close_calls, count. simpl. now rewrite Nat.eqb_refl.
    + intros h' Hne. unfold close_calls, count. simpl.
      destruct (Nat.eqb_spec h' h); [contradiction|reflexivity].
Qed.

Lemma connect_then_disconnect_witness :
  let s := Bench.start Bench.three 3%nat [] "0" in
  let s1 := snd (connect_instrument Bench.visa "GPIB0::10::INSTR"
                   (Some "my_instrument") s) in
  let s2 := snd (disconnect_instrument Bench.visa "my_instrument" s1) in
  Dict.contains "my_instrument" (instruments s2) = false /\
  instruments s2 = instruments s /\
  close_calls 3%nat (new_events s s2) = 1%nat.
Proof.
  destruct (connect_then_disconnect Bench.visa
              (Bench.start Bench.three 3%nat [] "0")
              (snd (connect_instrument Bench.visa "GPIB0::10::INSTR"
                      (Some "my_instrument")
                      (Bench.start Bench.three 3%nat [] "0")))
              (snd (disconnect_instrument Bench.visa "my_instrument"
                      (snd (connect_instrument Bench.visa "GPIB0::10::INSTR"
                              (Some "my_instrument")
                              (Bench.start Bench.three 3%nat [] "0")))))
              "GPIB0::10::INSTR" "my_instrument" eq_refl)
    as (H1 & _ & H3 & h & Hev & Hc & _).
  - unfold Dict.wf, Bench.three; simpl.
    repeat constructor; simpl; intuition discriminate.
  - reflexivity.
  - reflexivity.
  - injection Hev as <-.
    split; [exact H1|]. split; [apply H3; reflexivity|exact Hc].
Defined.

(** ** Closing everything *)

Section CloseAll.

Context {E : Type} (T : Transport E).

Lemma close_events_calls (h : handle) (d : Dict.t) :
  forall outs : list (outcome unit),
    List.length outs = List.length d ->
    close_calls h (close_events d outs)
    = count_occ Nat.eq_dec (Dict.values d) h.
Proof.
  unfold close_calls, count.
  induction d as [|[k h0] d IH]; intros [|r outs] Hlen;
    simpl in *; try discriminate; [reflexivity|].
  injection Hlen as Hlen. specialize (IH outs Hlen).
  destruct (Nat.eqb_spec h h0) as [->|Hne]; simpl.
  - destruct (Nat.eq_dec h0 h0); [now rewrite IH|contradiction].
  - destruct (Nat.eq_dec h0 h); [congruence|exact IH].
Qed.

Lemma close_events_no_rm_close (d : Dict.t) :
  forall outs, count is_rm_close (close_events d outs) = 0%nat.
Proof.
  unfold count.
  induction d as [|[k h0] d IH]; intros [|r outs]; simpl; auto.
Qed.

Lemma close_failed_nil (d : Dict.t) :
  forall outs : list (outcome unit),
    List.length outs = List.length d ->
    (close_failed d outs = [] <-> forallb is_ok outs = true).
Proof.
  induction d as [|kv d IH]; intros [|r outs] Hlen;
    simpl in *; try discriminate; [tauto|].
  injection Hlen as Hlen. specialize (IH outs Hlen).
  unfold raised. destruct r as [u|x]; simpl; [exact IH|].
  split; discriminate.
Qed.

(** The loop of [close_all_connections], started with the entries [rest]
    still to visit and the entries [kept] already visited and still
    registered (their close raised). *)
Lemma close_loop (rest : Dict.t) :
  forall (kept : Dict.t) (w : world E),
    Dict.wf (kept ++ rest) ->
    exists (outs : list (outcome unit)) (w' : world E),
      for_each (Dict.keys rest)
        (fun identifier =>
           bind (disconnect_instrument T identifier) (fun _ => ret tt))
        (mkState (kept ++ rest) w)
      = (Ok tt, mkState (kept ++ close_failed rest outs) w') /\
      List.length outs = List.length rest /\
      trace w' = trace w ++ close_events rest outs.
Proof.
  induction rest as [|[k h] rest IH]; intros kept w Hwf.
  - exists [], w. simpl. unfold ret. now rewrite !app_nil_r.
  - assert (Hnin : ~ In k (Dict.keys kept)).
    { unfold Dict.wf, Dict.keys in Hwf. rewrite map_app in Hwf. simpl in Hwf.
      apply NoDup_remove_2 in Hwf. intros Hin. apply Hwf.
      apply in_or_app. now left. }
    assert (Hg : Dict.get k (instruments (mkState (kept ++ (k, h) :: rest) w))
                 = Some h) by (now apply DictFacts.get_middle).
    simpl Dict.keys. simpl for_each. unfold bind at 1. unfold bind at 1.
    destruct (visa_close T h (env w)) as [[[[]|x] dt] e'] eqn:Hc.
    + rewrite (disconnect_closed T k h _ dt e' Hg Hc). simpl.
      rewrite DictFacts.del_middle by exact Hnin.
      destruct (IH kept (after_call w (EvClose h (Ok tt)) dt e' INFO))
        as (outs & w' & Hrun & Hlen & Htr).
      { unfold Dict.wf, Dict.keys in *. rewrite map_app in *. simpl in Hwf.
        now apply NoDup_remove_1 in Hwf. }
      exists (Ok tt :: outs), w'. simpl.
      split; [exact Hrun|]. split; [now rewrite Hlen|].
      rewrite Htr. simpl. now rewrite <- app_assoc.
    + rewrite (disconnect_close_raises T k h _ x dt e' Hg Hc). simpl.
      destruct (IH (kept ++ [(k, h)])
                   (after_call w (EvClose h (Raise x)) dt e' ERROR))
        as (outs & w' & Hrun & Hlen & Htr).
      { now rewrite <- app_assoc. }
      exists (Raise x :: outs), w'. simpl.
      rewrite <- !app_assoc in Hrun. simpl in Hrun.
      split; [exact Hrun|]. split; [now rewrite Hlen|].
      rewrite Htr. simpl. now rewrite <- app_assoc.
Qed.

(** After the loop, the resource manager is closed; a failure there is
    logged and nothing more. *)
Lemma close_all_run (s s1 : state E) :
  for_each (Dict.keys (instruments s))
    (fun identifier =>
       bind (disconnect_instrument T identifier) (fun _ => ret tt)) s
  = (Ok tt, s1) ->
  close_all_connections T s
  = (Ok tt,
     mkState (instruments s1)
       (match visa_rm_close T (env (wld s1)) with
        | (rm_out, dt, e') =>
            after_call (wld s1) (EvRmClose rm_out) dt e'
              (if is_ok rm_out then INFO else ERROR)
        end)).
Proof.
  intros Hrun.
  unfold close_all_connections, instruments_keys. unfold bind at 1.
  unfold bind at 1. rewrite Hrun.
  unfold try_except, bind, transport, in_world, transport_call, logger,
    log_world, after_call.
  destruct (visa_rm_close T (env (wld s1))) as [[[[]|x] dt] e'];
    reflexivity.
Qed.

End CloseAll.

(** C1, as the code has it.  [close_all_connections] on any registry makes
    one close call per registered entry, in registry order, and then one
    close call on the resource manager, whatever raises; it returns without
    raising.  An entry whose close raised stays in the registry: the
    registry afterwards holds exactly those entries, so it is empty if and
    only if no handle close raised. *)
Theorem close_all_connections_spec {E : Type} (T : Transport E)
    (s : state E) :
  Dict.wf (instruments s) ->
  let r := close_all_connections T s in
  fst r = Ok tt /\
  exists (outs : list (outcome unit)) (rm_out : outcome unit),
    List.length outs = List.length (instruments s) /\
    new_events s (snd r)
    = close_events (instruments s) outs ++ [EvRmClose rm_out] /\
    (forall h, close_calls h (new_events s (snd r))
               = count_occ Nat.eq_dec (Dict.values (instruments s)) h) /\
    count is_rm_close (new_events s (snd r)) = 1%nat /\
    instruments (snd r) = close_failed (instruments s) outs /\
    (instruments (snd r) = [] <-> forallb is_ok outs = true).
Proof.
  intros Hwf r. subst r. destruct s as [d w]. simpl in Hwf.
  destruct (close_loop T d [] w Hwf) as (outs & w' & Hrun & Hlen & Htr).
  simpl in Hrun.
  rewrite (close_all_run T (mkState d w) _ Hrun). simpl.
  destruct (visa_rm_close T (env w')) as [[rm_out dt] e'] eqn:Hrm.
  split; [reflexivity|]. exists outs, rm_out.
  assert (Hnew : new_events (mkState d w)
                   (mkState (close_failed d outs)
                      (after_call w' (EvRmClose rm_out) dt e'
                         (if is_ok rm_out then INFO else ERROR)))
                 = close_events d outs ++ [EvRmClose rm_out]).
  { apply new_events_app. simpl. rewrite Htr. now rewrite <- app_assoc. }
  rewrite Hnew. split; [exact Hlen|]. split; [reflexivity|].
  split; [|split; [|split; [reflexivity|now apply close_failed_nil]]].
  - intros h. unfold close_calls. rewrite count_app.
    fold (close_calls h (close_events d outs)).
    rewrite close_events_calls by exact Hlen.
    unfold count. simpl. lia.
  - rewrite count_app, close_events_no_rm_close. reflexivity.
Qed.

Lemma close_all_connections_spec_witness :
  let s := Bench.start Bench.three 3%nat [] "0" in
  let r := close_all_connections Bench.visa s in
  fst r = Ok tt /\
  instruments (snd r) = [] /\
  close_calls 0%nat (new_events s (snd r)) = 1%nat /\
  close_calls 1%nat (new_events s (snd r)) = 1%nat /\
  close_calls 2%nat (new_events s (snd r)) = 1%nat /\
  count is_rm_close (new_events s (snd r)) = 1%nat.
Proof.
  assert (Hwf : Dict.wf Bench.three).
  { unfold Dict.wf, Bench.three; simpl.
    repeat constructor; simpl; intuition discriminate. }
  destruct (close_all_connections_spec Bench.visa
              (Bench.start Bench.three 3%nat [] "0") Hwf)
    as (Hr & outs & rm_out & Hlen & Hev & Hcalls & Hrm & Hi & Hnil).
  split; [exact Hr|]. split; [reflexivity|].
  split; [exact (Hcalls 0%nat)|]. split; [exact (Hcalls 1%nat)|].
  split; [exact (Hcalls 2%nat)|exact Hrm].
Defined.

(** C1 as stated fails when a close raises: with three sessions of which the
    second cannot be closed, [close_all_connections] makes its three handle
    closes and the resource-manager close, and the registry still holds the
    second session. *)
Lemma close_all_connections_leaves_entry :
  let s := Bench.start Bench.three 3%nat [1%nat] "0" in
  let r := close_all_connections Bench.visa s in
  fst r = Ok tt /\
  new_events s (snd r)
  = [EvClose 0%nat (Ok tt);
     EvClose 1%nat (Raise (VisaIOError (-1073807346)));
     EvClose 2%nat (Ok tt); EvRmClose (Ok tt)] /\
  instruments (snd r) = [("smu2", 1%nat)] /\
  instruments (snd r) <> [].
Proof.
  vm_compute. repeat split; discriminate.
Qed.


(** ** No method raises *)

Section Totality.

Context {E : Type} (T : Transport E).

(** Case analysis along a method body: on the registry lookup, on what the
    transport answers, on whether the delay can be slept. *)
Ltac by_paths :=
  unfold_py; unfold Dict.contains; simpl;
  repeat (match goal with
          | |- context [Dict.get ?k ?d] =>
              destruct (Dict.get k d) eqn:?
          | |- context [visa_list_resources T ?e] =>
              destruct (visa_list_resources T e) as [[[?|?] ?] ?] eqn:?
          | |- context [visa_write T ?h ?c ?e] =>
              destruct (visa_write T h c e) as [[[[]|?] ?] ?] eqn:?
          | |- context [visa_query T ?h ?c ?e] =>
              destruct (visa_query T h c e) as [[[?|?] ?] ?] eqn:?
          | |- context [visa_read T ?h ?e] =>
              destruct (visa_read T h e) as [[[?|?] ?] ?] eqn:?
          | |- context [visa_close T ?h ?e] =>
              destruct (visa_close T h e) as [[[[]|?] ?] ?] eqn:?
          | |- context [sleep_world ?d ?w] =>
              rewrite (sleep_world_cases d w); destruct (sleepable d)
          end; simpl).

(** Each path ends in a value, with the calls it made appended to the
    trace; when one of them raised, the value is the sentinel. *)
Ltac path_done :=
  eexists _, _; (split; [reflexivity|]); split;
  [ first [ rewrite <- ?app_assoc; reflexivity
          | symmetry; apply app_nil_r ]
  | simpl; first [ discriminate | reflexivity | congruence | auto ] ].

Lemma list_resources_total (s : state E) :
  exists (l : list string) (evs : list event),
    fst (list_resources T s) = Ok l /\
    trace (wld (snd (list_resources T s))) = trace (wld s) ++ evs /\
    (existsb ev_raised evs = true -> l = []).
Proof. by_paths; path_done. Qed.

Lemma disconnect_total (k : string) (s : state E) :
  exists (b : bool) (evs : list event),
    fst (disconnect_instrument T k s) = Ok b /\
    trace (wld (snd (disconnect_instrument T k s))) = trace (wld s) ++ evs /\
    (existsb ev_raised evs = true -> b = false).
Proof. by_paths; path_done. Qed.

Lemma send_command_total (k command : string) (delay : Z) (s : state E) :
  exists (b : bool) (evs : list event),
    fst (send_command T k command delay s) = Ok b /\
    trace (wld (snd (send_command T k command delay s)))
    = trace (wld s) ++ evs /\
    (existsb ev_raised evs = true -> b = false).
Proof. by_paths; path_done. Qed.

Lemma query_command_total (k command : string) (delay : Z) (s : state E) :
  exists (o : option string) (evs : list event),
    fst (query_command T k command delay s) = Ok o /\
    trace (wld (snd (query_command T k command delay s)))
    = trace (wld s) ++ evs /\
    (existsb ev_raised evs = true -> o = None).
Proof. by_paths; path_done. Qed.

Lemma read_response_total (k : string) (s : state E) :
  exists (o : option string) (evs : list event),
    fst (read_response T k s) = Ok o /\
    trace (wld (snd (read_response T k s))) = trace (wld s) ++ evs /\
    (existsb ev_raised evs = true -> o = None).
Proof. by_paths; path_done. Qed.

Lemma connect_total (resource_name : string) (alias : option string)
    (s : state E) :
  exists (b : bool) (evs : list event),
    fst (connect_instrument T resource_name alias s) = Ok b /\
    trace (wld (snd (connect_instrument T resource_name alias s)))
    = trace (wld s) ++ evs /\
    (existsb ev_raised evs = true -> b = false).
Proof.
  destruct (connect_cases T resource_name alias s)
    as [(h & Hr & _ & Ht)|(evs & Hr & _ & Ht & _)].
  - exists true, (connect_events resource_name h).
    repeat split; [exact Hr|exact Ht|]. simpl. discriminate.
  - exists false, evs. repeat split; [exact Hr|exact Ht].
Qed.

(** A loop over a body that never raises never raises. *)
Lemma for_each_total {A : Type} (body : A -> M E unit) :
  (forall x s, exists s', body x s = (Ok tt, s')) ->
  forall xs s, exists s', for_each xs body s = (Ok tt, s').
Proof.
  intros Hbody xs. induction xs as [|x xs IH]; intros s; simpl.
  - now exists s.
  - unfold bind. destruct (Hbody x s) as [s1 ->]. apply IH.
Qed.

Lemma close_all_total (s : state E) :
  fst (close_all_connections T s) = Ok tt.
Proof.
  destruct (for_each_total
              (fun identifier =>
                 bind (disconnect_instrument T identifier)
                      (fun _ => ret tt))) with
    (xs := Dict.keys (instruments s)) (s := s) as [s1 Hrun].
  - intros k s0. unfold bind, ret.
    destruct (disconnect_total k s0) as (b & evs & Hr & _).
    destruct (disconnect_instrument T k s0) as [r s0']. simpl in Hr.
    subst r. now exists s0'.
  - now rewrite (close_all_run T s s1 Hrun).
Qed.

End Totality.


(** ** Waiting for completion *)

Section Waiting.

Context {E : Type} (T : Transport E).

Variables (k : string) (start_time timeout : Z).

(** *** One turn of the loop, path by path *)

Lemma wait_expired (s : state E) :
  timeout <= clock (wld s) - start_time ->
  wait_iteration T k start_time timeout s
  = (Ok (Some false), mkState (instruments s) (log_world WARNING (wld s))).
Proof.
  intros Hle. unfold wait_iteration, bind, time_time. simpl.
  destruct (Z.ltb_spec (clock (wld s) - start_time) timeout); [lia|].
  reflexivity.
Qed.

Lemma wait_absent (s : state E) :
  clock (wld s) - start_time < timeout ->
  Dict.get k (instruments s) = None ->
  wait_iteration T k start_time timeout s
  = (Ok None,
     mkState (instruments s)
       (mkWorld (env (wld s)) (clock (wld s) + 100)
          (trace (wld s) ++ [EvSleep 100]) (logs (wld s) ++ [ERROR]))).
Proof.
  intros Hlt Hg. unfold wait_iteration, bind at 1, time_time.
  destruct (Z.ltb_spec (clock (wld s) - start_time) timeout); [|lia].
  unfold bind at 1. rewrite (query_absent T k "*OPC?" default_delay s Hg).
  reflexivity.
Qed.

Lemma wait_done (s : state E) (h : handle) (raw : string) (dt : N)
    (e' : E) :
  clock (wld s) - start_time < timeout ->
  Dict.get k (instruments s) = Some h ->
  visa_query T h "*OPC?" (env (wld s)) = (Ok raw, dt, e') ->
  strip raw = "1" ->
  wait_iteration T k start_time timeout s
  = (Ok (Some true),
     mkState (instruments s)
       (mkWorld e' (clock (wld s) + Z.of_N dt + 100)
          (trace (wld s) ++ [EvQuery h "*OPC?" (Ok raw); EvSleep 100])
          (logs (wld s) ++ [DEBUG]))).
Proof.
  intros Hlt Hg Hq H1. unfold wait_iteration, bind at 1, time_time.
  destruct (Z.ltb_spec (clock (wld s) - start_time) timeout); [|lia].
  unfold bind at 1.
  rewrite (query_answered T k "*OPC?" default_delay h s raw dt e' Hg Hq)
    by reflexivity.
  simpl. rewrite H1. reflexivity.
Qed.

Lemma wait_not_done (s : state E) (h : handle) (raw : string) (dt : N)
    (e' : E) :
  clock (wld s) - start_time < timeout ->
  Dict.get k (instruments s) = Some h ->
  visa_query T h "*OPC?" (env (wld s)) = (Ok raw, dt, e') ->
  strip raw <> "1" ->
  wait_iteration T k start_time timeout s
  = (Ok None,
     mkState (instruments s)
       (mkWorld e' (clock (wld s) + Z.of_N dt + 100 + 100)
          (trace (wld s)
           ++ [EvQuery h "*OPC?" (Ok raw); EvSleep 100; EvSleep 100])
          (logs (wld s) ++ [DEBUG]))).
Proof.
  intros Hlt Hg Hq H1. unfold wait_iteration, bind at 1, time_time.
  destruct (Z.ltb_spec (clock (wld s) - start_time) timeout); [|lia].
  unfold bind at 1.
  rewrite (query_answered T k "*OPC?" default_delay h s raw dt e' Hg Hq)
    by reflexivity.
  simpl. destruct (String.eqb_spec (strip raw) "1"); [contradiction|].
  unfold bind, time_sleep, in_world, sleep_world, ret. simpl.
  rewrite <- app_assoc. reflexivity.
Qed.

Lemma wait_query_raises (s : state E) (h : handle) (x : exn) (dt : N)
    (e' : E) :
  clock (wld s) - start_time < timeout ->
  Dict.get k (instruments s) = Some h ->
  visa_query T h "*OPC?" (env (wld s)) = (Raise x, dt, e') ->
  wait_iteration T k start_time timeout s
  = (Ok None,
     mkState (instruments s)
       (mkWorld e' (clock (wld s) + Z.of_N dt + 100)
          (trace (wld s) ++ [EvQuery h "*OPC?" (Raise x); EvSleep 100])
          (logs (wld s) ++ [ERROR]))).
Proof.
  intros Hlt Hg Hq. unfold wait_iteration, bind at 1, time_time.
  destruct (Z.ltb_spec (clock (wld s) - start_time) timeout); [|lia].
  unfold bind at 1.
  rewrite (query_raises T k "*OPC?" default_delay h s x dt e' Hg Hq).
  simpl. unfold bind, time_sleep, in_world, sleep_world, ret. simpl.
  rewrite <- app_assoc. reflexivity.
Qed.

(** What one turn can do: stop with [False] once the time is up; stop with
    [True] on a poll answered ["1"]; or go on, at least 0.1 s later, having
    made at most one poll, not answered ["1"].  It never raises. *)
Lemma wait_iteration_step (s : state E) :
  exists (evs : list event) (s' : state E) (o : option bool),
    wait_iteration T k start_time timeout s = (Ok o, s') /\
    trace (wld s') = trace (wld s) ++ evs /\
    instruments s' = instruments s /\
    match o with
    | Some false => timeout <= clock (wld s) - start_time /\ evs = []
    | Some true =>
        clock (wld s) - start_time < timeout /\
        existsb opc_done evs = true /\ count is_query evs = 1%nat
    | None =>
        clock (wld s) - start_time < timeout /\
        clock (wld s) + 100 <= clock (wld s') /\
        existsb opc_done evs = false /\ (count is_query evs <= 1)%nat
    end.
Proof.
  destruct (Z.lt_ge_cases (clock (wld s) - start_time) timeout) as [Hlt|Hge].
  2:{ eexists [], _, _. split; [apply wait_expired; exact Hge|].
      simpl. rewrite app_nil_r. auto. }
  destruct (Dict.get k (instruments s)) as [h|] eqn:Hg.
  2:{ eexists _, _, _. split; [apply wait_absent; assumption|].
      cbn -[strip]. do 2 (split; [reflexivity|]).
      repeat split; first [reflexivity|lia|unfold count; simpl; lia]. }
  destruct (visa_query T h "*OPC?" (env (wld s))) as [[[raw|x] dt] e'] eqn:Hq.
  2:{ eexists _, _, _. split; [eapply wait_query_raises; eassumption|].
      cbn -[strip]. do 2 (split; [reflexivity|]).
      repeat split; first [reflexivity|lia|unfold count; simpl; lia]. }
  destruct (String.eqb_spec (strip raw) "1") as [H1|H1].
  - eexists _, _, _. split; [eapply wait_done; eassumption|].
    cbn -[strip]. do 2 (split; [reflexivity|]).
    cbn -[strip]. rewrite H1. simpl.
    repeat split; first [reflexivity|lia|unfold count; simpl; lia].
  - eexists _, _, _. split; [eapply wait_not_done; eassumption|].
    cbn -[strip]. do 2 (split; [reflexivity|]).
    cbn -[strip].
    destruct (String.eqb_spec (strip raw) "1"); [contradiction|].
    simpl.
    repeat split; first [reflexivity|lia|unfold count; simpl; lia].
Qed.

End Waiting.

Section WaitLoop.

Context {E : Type} (T : Transport E).

Variables (k : string) (start_time timeout : Z).

(** *** The loop *)

(** A run that ended goes the same way with more fuel. *)
Lemma wait_loop_more_fuel (fuel : nat) :
  forall (s : state E) (r : outcome bool * state E),
    wait_loop T fuel k start_time timeout s = Some r ->
    forall fuel', (fuel <= fuel')%nat ->
                  wait_loop T fuel' k start_time timeout s = Some r.
Proof.
  induction fuel as [|fuel IH]; intros s r Hrun fuel' Hle;
    [discriminate|].
  destruct fuel' as [|fuel']; [lia|]. simpl in *.
  destruct (wait_iteration T k start_time timeout s) as [[[b|]|x] s1];
    try exact Hrun.
  apply IH; [exact Hrun|lia].
Qed.

(** With a turn of fuel for every 0.1 s still to go, and one more, the loop
    ends, with a Boolean; the registry is as before; the result is [True]
    exactly when one of the polls made was answered ["1"]. *)
Lemma wait_loop_runs (fuel : nat) :
  forall s : state E,
    (1 <= fuel)%nat ->
    timeout - (clock (wld s) - start_time) <= 100 * (Z.of_nat fuel - 1) ->
    exists (b : bool) (s' : state E) (evs : list event),
      wait_loop T fuel k start_time timeout s = Some (Ok b, s') /\
      trace (wld s') = trace (wld s) ++ evs /\
      instruments s' = instruments s /\
      b = existsb opc_done evs.
Proof.
  induction fuel as [|fuel IH]; intros s Hpos Hfuel; [lia|].
  simpl.
  destruct (wait_iteration_step T k start_time timeout s)
    as (evs & s1 & o & Heq & Htr & Hi & Hcase).
  rewrite Heq. destruct o as [[|]|].
  - destruct Hcase as (_ & Hdone & _).
    exists true, s1, evs. now rewrite Hdone.
  - destruct Hcase as (_ & ->).
    exists false, s1, []. rewrite app_nil_r in Htr. rewrite app_nil_r.
    auto.
  - destruct Hcase as (Hlt & Hclock & Hnot & _).
    destruct (IH s1) as (b & s' & evs' & Hrun & Htr' & Hi' & Hb);
      [lia|lia|].
    exists b, s', (evs ++ evs'). repeat split.
    + exact Hrun.
    + rewrite Htr', Htr. now rewrite app_assoc.
    + congruence.
    + rewrite existsb_app, Hnot. exact Hb.
Qed.

Lemma wait_fuel_enough (fuel : nat) :
  (wait_fuel timeout <= fuel)%nat ->
  (1 <= fuel)%nat /\ timeout <= 100 * (Z.of_nat fuel - 1).
Proof.
  unfold wait_fuel. intros Hle. split; [lia|].
  pose proof (Z.div_mod (timeout + 99) 100 ltac:(lia)) as Hdiv.
  pose proof (Z.mod_pos_bound (timeout + 99) 100 ltac:(lia)) as Hmod.
  lia.
Qed.

(** *** A loop whose turns are all alike

    When every turn before the deadline goes on after exactly [period] ms,
    adding the calls [evs] and keeping the invariant [P], the loop makes
    [n] turns, where [n] is the number of periods needed to reach the
    deadline, logs the timeout and returns [False]. *)
Lemma wait_loop_steady (period : Z) (evs : list event)
    (P : state E -> Prop) :
  0 < period ->
  (forall s : state E,
      P s -> clock (wld s) - start_time < timeout ->
      exists s',
        wait_iteration T k start_time timeout s = (Ok None, s') /\
        P s' /\
        clock (wld s') = clock (wld s) + period /\
        trace (wld s') = trace (wld s) ++ evs /\
        instruments s' = instruments s) ->
  forall (n fuel : nat) (s : state E),
    P s ->
    (n < fuel)%nat ->
    timeout - (clock (wld s) - start_time) <= period * Z.of_nat n ->
    (n <> 0%nat ->
     period * (Z.of_nat n - 1) < timeout - (clock (wld s) - start_time)) ->
    exists s1,
      wait_loop T fuel k start_time timeout s
      = Some (Ok false,
              mkState (instruments s1) (log_world WARNING (wld s1))) /\
      P s1 /\
      clock (wld s1) = clock (wld s) + period * Z.of_nat n /\
      trace (wld s1) = trace (wld s) ++ List.concat (repeat evs n) /\
      instruments s1 = instruments s.
Proof.
  intros Hperiod Hturn n.
  induction n as [|n IH]; intros fuel s HP Hfuel Hup Hlow;
    (destruct fuel as [|fuel]; [lia|]); simpl wait_loop.
  - rewrite wait_expired by lia.
    exists s. split; [reflexivity|]. simpl.
    rewrite app_nil_r, Z.mul_0_r, Z.add_0_r. auto.
  - destruct (Hturn s HP) as (s1 & Heq & HP1 & Hc1 & Ht1 & Hi1).
    { specialize (Hlow ltac:(lia)). nia. }
    rewrite Heq.
    destruct (IH fuel s1 HP1) as (s' & Hrun & HP' & Hc' & Ht' & Hi');
      [lia|nia|intros Hn; specialize (Hlow ltac:(lia)); nia|].
    exists s'. repeat split.
    + exact Hrun.
    + exact HP'.
    + rewrite Hc', Hc1. nia.
    + rewrite Ht', Ht1. simpl. now rewrite <- app_assoc.
    + congruence.
Qed.

End WaitLoop.

Lemma concat_repeat_singleton {A : Type} (x : A) (n : nat) :
  List.concat (repeat [x] n) = repeat x n.
Proof. induction n as [|n IH]; simpl; [reflexivity|now rewrite IH]. Qed.

Lemma count_repeat_sleep (p : event -> bool) (ms : Z) (n : nat) :
  p (EvSleep ms) = false -> count p (repeat (EvSleep ms) n) = 0%nat.
Proof.
  intros Hp. unfold count. induction n as [|n IH]; simpl; [reflexivity|].
  now rewrite Hp.
Qed.


Lemma wait_for_completion_unfold {E : Type} (T : Transport E) (fuel : nat)
    (k : string) (timeout : Z) (s : state E) :
  wait_for_completion T fuel k timeout s
  = wait_loop T fuel k (clock (wld s)) timeout s.
Proof. reflexivity. Qed.

(** C10.  For a key that is not in the registry, whatever the timeout:
    every poll's [query_command] returns [None], without a call to the
    transport; [wait_for_completion] does not return [True], whatever the
    fuel; given enough fuel it returns [False], after sleeping 0.1 s once
    for every 0.1 s of the timeout (rounded up), with no call to the
    transport, the environment and the registry as before. *)
Theorem wait_for_completion_unknown_key {E : Type} (T : Transport E)
    (s : state E) (k : string) (timeout : Z) :
  Dict.contains k (instruments s) = false ->
  let n := Z.to_nat ((timeout + 99) / 100) in
  (forall s0 : state E,
      Dict.contains k (instruments s0) = false ->
      fst (query_command T k "*OPC?" default_delay s0) = Ok None /\
      new_events s0 (snd (query_command T k "*OPC?" default_delay s0)) = [])
  /\
  (forall fuel s',
      wait_for_completion T fuel k timeout s <> Some (Ok true, s'))
  /\
  (forall fuel,
      (wait_fuel timeout <= fuel)%nat ->
      exists s',
        wait_for_completion T fuel k timeout s = Some (Ok false, s') /\
        new_events s s' = repeat (EvSleep 100) n /\
        count is_transport (new_events s s') = 0%nat /\
        clock (wld s') = clock (wld s) + 100 * Z.of_nat n /\
        env (wld s') = env (wld s) /\
        instruments s' = instruments s).
Proof.
  intros Hk n. apply DictFacts.not_contains_get in Hk.
  assert (Hn : timeout <= 100 * Z.of_nat n /\
               (n <> 0%nat -> 100 * (Z.of_nat n - 1) < timeout)).
  { subst n.
    pose proof (Z.div_mod (timeout + 99) 100 ltac:(lia)) as Hdiv.
    pose proof (Z.mod_pos_bound (timeout + 99) 100 ltac:(lia)) as Hmod.
    split; lia. }
  assert (Hrun : forall fuel,
             (wait_fuel timeout <= fuel)%nat ->
             exists s1,
               wait_for_completion T fuel k timeout s
               = Some (Ok false,
                       mkState (instruments s1)
                               (log_world WARNING (wld s1))) /\
               (Dict.get k (instruments s1) = None /\
                env (wld s1) = env (wld s)) /\
               clock (wld s1) = clock (wld s) + 100 * Z.of_nat n /\
               trace (wld s1)
               = trace (wld s) ++ List.concat (repeat [EvSleep 100] n) /\
               instruments s1 = instruments s).
  { intros fuel Hfuel. rewrite wait_for_completion_unfold.
    apply (wait_loop_steady T k (clock (wld s)) timeout 100 [EvSleep 100]
             (fun s0 => Dict.get k (instruments s0) = None /\
                        env (wld s0) = env (wld s))).
    - lia.
    - intros s0 [Hg He] Hlt. eexists. split; [now apply wait_absent|].
      simpl. auto.
    - auto.
    - unfold wait_fuel in Hfuel. subst n. lia.
    - lia.
    - intros Hne. destruct Hn as [_ Hn]. specialize (Hn Hne). lia. }
  split; [|split].
  - intros s0 Hk0. apply DictFacts.not_contains_get in Hk0.
    rewrite (query_absent T k "*OPC?" default_delay s0 Hk0). simpl.
    split; [reflexivity|]. now apply new_events_same.
  - intros fuel s' Htrue.
    destruct (Hrun (Nat.max fuel (wait_fuel timeout)) ltac:(lia))
      as (s1 & Hfalse & _).
    rewrite wait_for_completion_unfold in *.
    rewrite (wait_loop_more_fuel T k _ timeout fuel s _ Htrue
               (Nat.max fuel (wait_fuel timeout)) ltac:(lia)) in Hfalse.
    discriminate.
  - intros fuel Hfuel.
    destruct (Hrun fuel Hfuel) as (s1 & Hfalse & [_ He] & Hc & Ht & Hi).
    eexists. split; [exact Hfalse|].
    rewrite concat_repeat_singleton in Ht.
    assert (Hev : new_events s
                    (mkState (instruments s1) (log_world WARNING (wld s1)))
                  = repeat (EvSleep 100) n)
      by (apply new_events_app; exact Ht).
    rewrite Hev. simpl. repeat split; auto.
    now apply count_repeat_sleep.
Qed.

Lemma wait_for_completion_unknown_key_witness :
  let s := Bench.start Bench.three 3%nat [] "1" in
  exists s',
    wait_for_completion Bench.visa (wait_fuel 1000) "dmm" 1000 s
    = Some (Ok false, s') /\
    new_events s s' = repeat (EvSleep 100) 10 /\
    count is_transport (new_events s s') = 0%nat.
Proof.
  destruct (wait_for_completion_unknown_key Bench.visa
              (Bench.start Bench.three 3%nat [] "1") "dmm" 1000 eq_refl)
    as (_ & _ & Hrun).
  destruct (Hrun (wait_fuel 1000) (le_n _))
    as (s' & Hr & Hev & Hc & _).
  exists s'. split; [exact Hr|]. split; [exact Hev|exact Hc].
Defined.

(** The calls of one poll that is not answered ["1"]: the query, the 0.1 s
    of [query_command], the 0.1 s of the loop. *)
Lemma poll_period_is_200 (h : handle) (raw : string) :
  let poll := [EvQuery h "*OPC?" (Ok raw); EvSleep 100; EvSleep 100] in
  fold_right (fun ev t => match ev with EvSleep ms => ms + t | _ => t end)
             0 poll = 200.
Proof. reflexivity. Qed.

Section WaitTurns.

Context {E : Type} (T : Transport E).

Variables (k : string) (start_time timeout : Z).



End WaitTurns.




(** C8, as the code has it.  Given enough fuel, [wait_for_completion]
    returns a Boolean, which is [True] if and only if one of the [*OPC?]
    polls it made was answered (after stripping) with the string ["1"].
    With a POSITIVE timeout, against a handle whose first answer is ["1"],
    it returns [True] at once: one query, the 0.1 s of [query_command], and
    nothing else. *)
Theorem wait_for_completion_true_iff {E : Type} (T : Transport E)
    (s : state E) (k : string) (timeout : Z) :
  (forall fuel,
      (wait_fuel timeout <= fuel)%nat ->
      exists (b : bool) (s' : state E),
        wait_for_completion T fuel k timeout s = Some (Ok b, s') /\
        (b = true <-> existsb opc_done (new_events s s') = true))
  /\
  (forall (h : handle) (raw : string) (dt : N) (e' : E) (fuel : nat),
      0 < timeout ->
      Dict.get k (instruments s) = Some h ->
      visa_query T h "*OPC?" (env (wld s)) = (Ok raw, dt, e') ->
      strip raw = "1" ->
      (1 <= fuel)%nat ->
      exists s',
        wait_for_completion T fuel k timeout s = Some (Ok true, s') /\
        new_events s s' = [EvQuery h "*OPC?" (Ok raw); EvSleep 100] /\
        count is_query (new_events s s') = 1%nat).
Proof.
  split.
  - intros fuel Hfuel. apply wait_fuel_enough in Hfuel.
    destruct Hfuel as [Hpos Hfuel].
    destruct (wait_loop_runs T k (clock (wld s)) timeout fuel s Hpos
                ltac:(lia))
      as (b & s' & evs & Hrun & Htr & _ & Hb).
    exists b, s'. split; [exact Hrun|].
    rewrite (new_events_app _ _ _ Htr), <- Hb. reflexivity.
  - intros h raw dt e' fuel Hpos Hg Hq H1 Hfuel.
    destruct fuel as [|fuel]; [lia|].
    rewrite wait_for_completion_unfold. simpl wait_loop.
    rewrite (wait_done T k (clock (wld s)) timeout s h raw dt e')
      by (assumption || lia).
    eexists. split; [reflexivity|].
    assert (Hev : forall s', trace (wld s')
                             = trace (wld s)
                               ++ [EvQuery h "*OPC?" (Ok raw); EvSleep 100] ->
                             new_events s s'
                             = [EvQuery h "*OPC?" (Ok raw); EvSleep 100])
      by (intros s'; apply new_events_app).
    rewrite Hev by reflexivity. split; reflexivity.
Qed.

Lemma wait_for_completion_true_iff_witness :
  let s := Bench.start Bench.three 3%nat [] "1" in
  exists s',
    wait_for_completion Bench.visa (wait_fuel 30000) "smu1" 30000 s
    = Some (Ok true, s') /\
    count is_query (new_events s s') = 1%nat.
Proof.
  destruct (wait_for_completion_true_iff Bench.visa
              (Bench.start Bench.three 3%nat [] "1") "smu1" 30000)
    as [_ H].
  destruct (H 0%nat "1" 0%N (Bench.mk 3%nat [] "1") (wait_fuel 30000)
              eq_refl eq_refl eq_refl eq_refl)
    as (s' & Hr & _ & Hc).
  - unfold wait_fuel. lia.
  - exists s'. split; [exact Hr|exact Hc].
Defined.

(** C8 as stated fails for a timeout that is not positive: the handle's
    first answer would be ["1"], but with [timeout = 0] the loop body is
    never entered; the call returns [False] and no query is issued. *)
Lemma wait_for_completion_zero_timeout :
  let s := Bench.start Bench.three 3%nat [] "1" in
  visa_query Bench.visa 0%nat "*OPC?" (env (wld s))
  = (Ok "1", 0%N, env (wld s)) /\
  match wait_for_completion Bench.visa (wait_fuel 0) "smu1" 0 s with
  | Some (Ok false, s') => count is_query (new_events s s') = 0%nat
  | _ => False
  end.
Proof.
  vm_compute. split; reflexivity.
Qed.

(** ** The error policy *)

Lemma returns_or_sentinel_intro {E A : Type} (sentinel : A) (s : state E)
    (r : outcome A * state E) :
  (exists (v : A) (evs : list event),
      fst r = Ok v /\
      trace (wld (snd r)) = trace (wld s) ++ evs /\
      (existsb ev_raised evs = true -> v = sentinel)) ->
  returns_or_sentinel sentinel s r.
Proof.
  intros (v & evs & Hr & Ht & Hs). exists v. split; [exact Hr|].
  now rewrite (new_events_app _ _ _ Ht).
Qed.

(** C6.  No public operation raises, in any state and whatever the
    transport does: [list_resources], [connect_instrument],
    [disconnect_instrument], [send_command], [query_command],
    [read_response], [get_identification], [reset_instrument] and
    [clear_instrument] return a value, which is [[]], [False] or [None] when
    a call to the resource manager or to a handle raised;
    [wait_for_completion] (given enough fuel) returns a Boolean;
    [close_all_connections] returns.  Only [__init__] raises, and it raises
    exactly what [pyvisa.ResourceManager] raised. *)
Theorem public_operations_never_raise {E : Type} (T : Transport E)
    (s : state E) :
  (forall (visa_library : option string) (w : world E),
      match visa_ResourceManager T
              (if opt_truthy visa_library then visa_library else None)
              (env w) with
      | (Ok _, _, _) =>
          exists st, fst (__init__ T visa_library w) = Ok st /\
                     instruments st = Dict.empty
      | (Raise x, _, _) => fst (__init__ T visa_library w) = Raise x
      end) /\
  returns_or_sentinel [] s (list_resources T s) /\
  (forall resource_name alias,
      returns_or_sentinel false s
        (connect_instrument T resource_name alias s)) /\
  (forall k, returns_or_sentinel false s (disconnect_instrument T k s)) /\
  (forall k command delay,
      returns_or_sentinel false s (send_command T k command delay s)) /\
  (forall k command delay,
      returns_or_sentinel None s (query_command T k command delay s)) /\
  (forall k, returns_or_sentinel None s (read_response T k s)) /\
  (forall k, returns_or_sentinel None s (get_identification T k s)) /\
  (forall k, returns_or_sentinel false s (reset_instrument T k s)) /\
  (forall k, returns_or_sentinel false s (clear_instrument T k s)) /\
  (forall k timeout fuel,
      (wait_fuel timeout <= fuel)%nat ->
      exists (b : bool) (s' : state E),
        wait_for_completion T fuel k timeout s = Some (Ok b, s')) /\
  fst (close_all_connections T s) = Ok tt.
Proof.
  split.
  { intros visa_library w. unfold __init__, transport_call.
    destruct (visa_ResourceManager T _ (env w)) as [[[[]|x] dt] e'].
    - eexists. split; reflexivity.
    - reflexivity. }
  repeat split; intros.
  - apply returns_or_sentinel_intro, list_resources_total.
  - apply returns_or_sentinel_intro, connect_total.
  - apply returns_or_sentinel_intro, disconnect_total.
  - apply returns_or_sentinel_intro, send_command_total.
  - apply returns_or_sentinel_intro, query_command_total.
  - apply returns_or_sentinel_intro, read_response_total.
  - apply returns_or_sentinel_intro, query_command_total.
  - apply returns_or_sentinel_intro, send_command_total.
  - apply returns_or_sentinel_intro, send_command_total.
  - match goal with H : (wait_fuel _ <= _)%nat |- _ =>
      apply wait_fuel_enough in H; destruct H as [Hpos Hfuel] end.
    destruct (wait_loop_runs T k (clock (wld s)) timeout fuel s Hpos
                ltac:(lia))
      as (b & s' & evs & Hrun & _).
    now exists b, s'.
  - apply close_all_total.
Qed.

Lemma public_operations_never_raise_witness :
  let s := Bench.start Bench.three 3%nat [1%nat] "0" in
  fst (disconnect_instrument Bench.visa "smu2" s) = Ok false /\
  fst (close_all_connections Bench.visa s) = Ok tt.
Proof.
  destruct (public_operations_never_raise Bench.visa
              (Bench.start Bench.three 3%nat [1%nat] "0"))
    as (_ & _ & _ & Hd & _ & _ & _ & _ & _ & _ & _ & Hc).
  destruct (Hd "smu2") as (b & Hr & Hs).
  split; [|exact Hc].
  rewrite (Hs eq_refl) in Hr. exact Hr.
Defined.


(** * Further properties of the module *)

(** ** Construction and enumeration *)

(** X1.  [list_resources] makes one call, to the resource manager, and
    leaves the registry alone; it returns the list the resource manager
    gave, and the empty list when the call raised: a failed enumeration
    and a bus without instruments look the same to the caller. *)
Theorem list_resources_spec {E : Type} (T : Transport E) (s : state E) :
  let r := list_resources T s in
  instruments (snd r) = instruments s /\
  match visa_list_resources T (env (wld s)) with
  | (Ok l, _, _) =>
      fst r = Ok l /\ new_events s (snd r) = [EvListResources (Ok l)]
  | (Raise x, _, _) =>
      fst r = Ok [] /\ new_events s (snd r) = [EvListResources (Raise x)]
  end.
Proof.
  unfold_py. simpl.
  destruct (visa_list_resources T (env (wld s))) as [[[l|x] dt] e'];
    simpl; repeat split; now apply new_events_app.
Qed.

(** X2.  The constructor treats an empty library path as no path: it makes
    one call, [pyvisa.ResourceManager()] without argument, exactly as with
    [None]; a non-empty path is passed on.  When the call succeeds the new
    controller has an empty registry; [LGAD_IV] is constructed the same
    way. *)
Theorem init_spec {E : Type} (T : Transport E) (w : world E)
    (path : string) :
  __init__ T (Some "") w = __init__ T None w /\
  LGAD_IV.__init__ T (Some path) w = __init__ T (Some path) w /\
  (forall arg : option string,
      (arg = None \/ (arg = Some path /\ path <> "")) ->
      trace (snd (__init__ T arg w))
      = trace w ++ [EvResourceManager arg
                      (fst (fst (visa_ResourceManager T arg (env w))))] /\
      forall st, fst (__init__ T arg w) = Ok st ->
                 instruments st = Dict.empty /\
                 wld st = snd (__init__ T arg w)).
Proof.
  split; [reflexivity|]. split; [reflexivity|].
  intros arg Harg.
  assert (Hsame : (if opt_truthy arg then arg else None) = arg).
  { destruct Harg as [->|[-> Hne]]; [reflexivity|].
    destruct path; [contradiction|reflexivity]. }
  unfold __init__, transport_call. rewrite Hsame.
  destruct (visa_ResourceManager T arg (env w)) as [[[[]|x] dt] e'];
    simpl; (split; [reflexivity|]); intros st Hst;
    [injection Hst as <-; split; reflexivity|discriminate].
Qed.

Lemma init_spec_witness :
  let w := Rig.world0 [] ["GPIB0::10::INSTR"] "1" 5 in
  trace (snd (__init__ Rig.visa (Some "/usr/lib/libvisa.so") w))
  = [EvResourceManager (Some "/usr/lib/libvisa.so") (Ok tt)].
Proof.
  destruct (init_spec Rig.visa
              (Rig.world0 [] ["GPIB0::10::INSTR"] "1" 5)
              "/usr/lib/libvisa.so") as (_ & _ & H).
  destruct (H (Some "/usr/lib/libvisa.so")) as [Ht _].
  - right. split; [reflexivity|discriminate].
  - exact Ht.
Defined.

(** ** Connecting: the other paths *)

Section ConnectPaths.

Context {E : Type} (T : Transport E).

Lemma connect_paths (resource_name : string) (alias : option string)
    (s : state E) :
  let r := connect_instrument T resource_name alias s in
  (exists h,
      fst r = Ok true /\
      instruments (snd r)
      = Dict.set (or_else alias resource_name) h (instruments s) /\
      new_events s (snd r) = connect_events resource_name h)
  \/
  (exists x,
      fst r = Ok false /\
      instruments (snd r) = instruments s /\
      connect_failure resource_name x (new_events s (snd r))).
Proof.
  unfold_py. simpl.
  destruct (visa_open_resource T resource_name (env (wld s)))
    as [[[h|x] dt0] e0] eqn:H0; simpl.
  2:{ right. exists x. repeat split. left. now apply new_events_app. }
  destruct (visa_set_timeout T h 10000 e0) as [[[[]|x] dt1] e1] eqn:H1;
    simpl.
  2:{ right. exists x. repeat split. right. exists h. left.
      apply new_events_app. simpl. now rewrite <- app_assoc. }
  destruct (visa_set_write_termination T h LF e1)
    as [[[[]|x] dt2] e2] eqn:H2; simpl.
  2:{ right. exists x. repeat split. right. exists h. right. left.
      apply new_events_app. simpl. now rewrite <- !app_assoc. }
  destruct (visa_set_read_termination T h LF e2)
    as [[[[]|x] dt3] e3] eqn:H3; simpl.
  2:{ right. exists x. repeat split. right. exists h. right. right.
      apply new_events_app. simpl. now rewrite <- !app_assoc. }
  left. exists h. repeat split.
  apply new_events_app. simpl. now rewrite <- !app_assoc.
Qed.

End ConnectPaths.

(** X3.  [connect_instrument] stops at the first call that raises and
    returns [False], with the registry as it was.  It never closes
    anything: when the open succeeded and a setting raised, the handle just
    opened is neither registered nor closed. *)
Theorem connect_failure_leaves_handle_open {E : Type} (T : Transport E)
    (s : state E) (resource_name : string) (alias : option string) :
  let r := connect_instrument T resource_name alias s in
  fst r = Ok false ->
  instruments (snd r) = instruments s /\
  (exists x, connect_failure resource_name x (new_events s (snd r))) /\
  closed (new_events s (snd r)) = [] /\
  forall h, In h (opened (new_events s (snd r))) ->
            close_calls h (new_events s (snd r)) = 0%nat.
Proof.
  intros r Hr. subst r.
  destruct (connect_paths T resource_name alias s)
    as [(h & Ht & _)|(x & _ & Hi & Hf)]; [congruence|].
  split; [exact Hi|]. split; [now exists x|].
  destruct Hf as [-> | (h & [-> | [-> | ->]])]; simpl;
    (split; [reflexivity|]); intros h0 Hin; reflexivity.
Qed.

Lemma connect_failure_leaves_handle_open_witness :
  let s := Rig.start Bench.three 3%nat [Rig.OpSetWriteTermination] "1" 5 in
  let r := connect_instrument Rig.visa "GPIB0::12::INSTR" (Some "dmm") s in
  instruments (snd r) = Bench.three /\
  opened (new_events s (snd r)) = [3%nat] /\
  closed (new_events s (snd r)) = [].
Proof.
  destruct (connect_failure_leaves_handle_open Rig.visa
              (Rig.start Bench.three 3%nat [Rig.OpSetWriteTermination] "1" 5)
              "GPIB0::12::INSTR" (Some "dmm") eq_refl)
    as (Hi & _ & Hc & _).
  split; [exact Hi|]. split; [reflexivity|exact Hc].
Defined.

(** X4.  A successful [connect_instrument] opens one handle and sets its
    timeout to 10000 ms and both terminators to a line feed, in that order,
    and does nothing else.  The handle sits under the alias, or under the
    resource name when no alias is given; every other key keeps its handle;
    a key that is new goes to the end of the registry; the registry still
    holds each key once. *)
Theorem connect_instrument_registers {E : Type} (T : Transport E)
    (s : state E) (resource_name : string) (alias : option string) :
  let r := connect_instrument T resource_name alias s in
  let key := or_else alias resource_name in
  fst r = Ok true ->
  or_else None resource_name = resource_name /\
  exists h,
    new_events s (snd r) = connect_events resource_name h /\
    Dict.get key (instruments (snd r)) = Some h /\
    (forall k', k' <> key ->
                Dict.get k' (instruments (snd r))
                = Dict.get k' (instruments s)) /\
    (Dict.contains key (instruments s) = false ->
     instruments (snd r) = instruments s ++ [(key, h)]) /\
    (Dict.wf (instruments s) -> Dict.wf (instruments (snd r))).
Proof.
  intros r key Hr. subst r key. split; [reflexivity|].
  destruct (connect_paths T resource_name alias s)
    as [(h & _ & Hi & Ht)|(x & Hf & _)]; [|congruence].
  exists h. rewrite Hi. repeat split.
  - exact Ht.
  - apply DictFacts.get_set_same.
  - intros k' Hne. now apply DictFacts.get_set_other.
  - apply DictFacts.set_absent.
  - apply DictFacts.wf_set.
Qed.

Lemma connect_instrument_registers_witness :
  let s := Rig.start Bench.three 3%nat [] "1" 5 in
  let r := connect_instrument Rig.visa "GPIB0::12::INSTR" None s in
  instruments (snd r) = Bench.three ++ [("GPIB0::12::INSTR", 3%nat)].
Proof.
  destruct (connect_instrument_registers Rig.visa
              (Rig.start Bench.three 3%nat [] "1" 5)
              "GPIB0::12::INSTR" None eq_refl)
    as (_ & h & Hev & _ & _ & Happ & _).
  injection Hev as <-. exact (Happ eq_refl).
Defined.

(** ** Commands, queries and reads on a connected instrument *)

Section Io.

Context {E : Type} (T : Transport E).

Lemma send_paths (k command : string) (delay : Z) (h : handle)
    (s : state E) :
  Dict.get k (instruments s) = Some h ->
  send_command T k command delay s
  = match visa_write T h command (env (wld s)) with
    | (Ok _, dt, e') =>
        if sleepable delay
        then (Ok true,
              mkState (instruments s)
                (mkWorld e' (clock (wld s) + Z.of_N dt + delay)
                   (trace (wld s)
                    ++ [EvWrite h command (Ok tt); EvSleep delay])
                   (logs (wld s) ++ [DEBUG])))
        else (Ok false,
              mkState (instruments s)
                (after_call (wld s) (EvWrite h command (Ok tt)) dt e' ERROR))
    | (Raise x, dt, e') =>
        (Ok false,
         mkState (instruments s)
           (after_call (wld s) (EvWrite h command (Raise x)) dt e' ERROR))
    end.
Proof.
  intros Hg. unfold_py. unfold Dict.contains. simpl.
  repeat (rewrite ?Hg; simpl).
  destruct (visa_write T h command (env (wld s))) as [[[[]|x] dt] e'];
    simpl; [|reflexivity].
  rewrite sleep_world_cases.
  destruct (sleepable delay); simpl; [|reflexivity].
  now rewrite <- app_assoc.
Qed.

Lemma query_paths (k command : string) (delay : Z) (h : handle)
    (s : state E) :
  Dict.get k (instruments s) = Some h ->
  query_command T k command delay s
  = match visa_query T h command (env (wld s)) with
    | (Ok raw, dt, e') =>
        if sleepable delay
        then (Ok (Some (strip raw)),
              mkState (instruments s)
                (mkWorld e' (clock (wld s) + Z.of_N dt + delay)
                   (trace (wld s)
                    ++ [EvQuery h command (Ok raw); EvSleep delay])
                   (logs (wld s) ++ [DEBUG])))
        else (Ok None,
              mkState (instruments s)
                (after_call (wld s) (EvQuery h command (Ok raw)) dt e'
                   ERROR))
    | (Raise x, dt, e') =>
        (Ok None,
         mkState (instruments s)
           (after_call (wld s) (EvQuery h command (Raise x)) dt e' ERROR))
    end.
Proof.
  intros Hg. unfold_py. unfold Dict.contains. simpl.
  repeat (rewrite ?Hg; simpl).
  destruct (visa_query T h command (env (wld s))) as [[[raw|x] dt] e'];
    simpl; [|reflexivity].
  rewrite sleep_world_cases.
  destruct (sleepable delay); simpl; [|reflexivity].
  now rewrite <- app_assoc.
Qed.

Lemma read_paths (k : string) (h : handle) (s : state E) :
  Dict.get k (instruments s) = Some h ->
  read_response T k s
  = match visa_read T h (env (wld s)) with
    | (Ok raw, dt, e') =>
        (Ok (Some (strip raw)),
         mkState (instruments s)
           (after_call (wld s) (EvRead h (Ok raw)) dt e' DEBUG))
    | (Raise x, dt, e') =>
        (Ok None,
         mkState (instruments s)
           (after_call (wld s) (EvRead h (Raise x)) dt e' ERROR))
    end.
Proof.
  intros Hg. unfold_py. unfold Dict.contains. simpl.
  repeat (rewrite ?Hg; simpl).
  destruct (visa_read T h (env (wld s))) as [[[raw|x] dt] e'];
    reflexivity.
Qed.

End Io.

(** *** What [strip] removes *)

Module StripFacts.

Lemma lstrip_head (l : list ascii) : head_ok (lstrip_chars l).
Proof. exact (lstrip_chars_no_leading_space l). Qed.

Lemma lstrip_id (l : list ascii) : head_ok l -> lstrip_chars l = l.
Proof. destruct l as [|c r]; simpl; [reflexivity|]. now intros ->. Qed.


Lemma lstrip_app (a b : list ascii) :
  lstrip_chars (a ++ b)
  = match lstrip_chars a with
    | [] => lstrip_chars b
    | x :: r => (x :: r) ++ b
    end.
Proof.
  induction a as [|c a IH]; simpl; [reflexivity|].
  destruct (isspace c); [exact IH|reflexivity].
Qed.

(** Stripping on the right keeps the first character, unless nothing is
    left. *)
Lemma rstrip_head (l : list ascii) :
  head_ok l -> head_ok (rev (lstrip_chars (rev l))).
Proof.
  destruct l as [|c r]; simpl; [auto|]. intros Hc.
  rewrite lstrip_app.
  destruct (lstrip_chars (rev r)) as [|x t]; simpl.
  - rewrite Hc. simpl. exact Hc.
  - rewrite rev_app_distr. simpl. exact Hc.
Qed.

Lemma chars_of_strip (s : string) :
  list_ascii_of_string (strip s)
  = rev (lstrip_chars (rev (lstrip_chars (list_ascii_of_string s)))).
Proof. unfold strip. apply list_ascii_of_string_of_list_ascii. Qed.

Lemma strip_no_leading_space (s : string) :
  starts_with_space (strip s) = false.
Proof.
  unfold starts_with_space. rewrite chars_of_strip.
  pose proof (rstrip_head _ (lstrip_head (list_ascii_of_string s))) as H.
  destruct (rev _) as [|c r]; [reflexivity|exact H].
Qed.

Lemma strip_no_trailing_space (s : string) :
  ends_with_space (strip s) = false.
Proof.
  unfold ends_with_space. rewrite chars_of_strip, rev_involutive.
  pose proof (lstrip_head (rev (lstrip_chars (list_ascii_of_string s))))
    as H.
  destruct (lstrip_chars _) as [|c r]; [reflexivity|exact H].
Qed.


Lemma strip_idempotent (s : string) : strip (strip s) = strip s.
Proof.
  unfold strip at 1. rewrite chars_of_strip.
  set (l := lstrip_chars (list_ascii_of_string s)).
  rewrite (lstrip_id (rev (lstrip_chars (rev l)))).
  - rewrite rev_involutive.
    rewrite (lstrip_id (lstrip_chars (rev l)) (lstrip_head _)).
    reflexivity.
  - apply rstrip_head, lstrip_head.
Qed.

End StripFacts.





(** X7.  [read_response] on a connected instrument makes one read on the
    handle registered under the key, never sleeps, and leaves the registry
    alone; it returns the answer without the whitespace at its two ends, or
    [None] when the read raised. *)
Theorem read_response_connected {E : Type} (T : Transport E) (s : state E)
    (k : string) (h : handle) :
  Dict.get k (instruments s) = Some h ->
  let r := read_response T k s in
  let evs := new_events s (snd r) in
  instruments (snd r) = instruments s /\
  slept evs = 0 /\
  ((exists raw,
       fst r = Ok (Some (strip raw)) /\ evs = [EvRead h (Ok raw)] /\
       starts_with_space (strip raw) = false /\
       ends_with_space (strip raw) = false)
   \/
   (exists x, fst r = Ok None /\ evs = [EvRead h (Raise x)])).
Proof.
  intros Hg r evs. subst r evs. rewrite (read_paths T k h s Hg).
  destruct (visa_read T h (env (wld s))) as [[[raw|x] dt] e']; simpl.
  - rewrite (new_events_app s _ [EvRead h (Ok raw)]) by reflexivity.
    repeat split. left. exists raw. repeat split.
    + apply StripFacts.strip_no_leading_space.
    + apply StripFacts.strip_no_trailing_space.
  - rewrite (new_events_app s _ [EvRead h (Raise x)]) by reflexivity.
    repeat split. right. now exists x.
Qed.

Lemma read_response_connected_witness :
  let s := Rig.start Bench.three 3%nat [Rig.OpRead] "1" 5 in
  let r := read_response Rig.visa "smu1" s in
  instruments (snd r) = Bench.three /\ slept (new_events s (snd r)) = 0.
Proof.
  destruct (read_response_connected Rig.visa
              (Rig.start Bench.three 3%nat [Rig.OpRead] "1" 5)
              "smu1" 0%nat eq_refl)
    as (Hi & Hs & _).
  split; [exact Hi|exact Hs].
Defined.

(** X8.  The SCPI shortcuts on a connected instrument.  Their delays are
    fixed and not negative, so each succeeds exactly when its one transport
    call does: [reset_instrument] writes ["*RST"] and then sleeps 2 s,
    [clear_instrument] writes ["*CLS"] and then sleeps 0.1 s,
    [get_identification] queries ["*IDN?"], sleeps 0.1 s and returns the
    stripped answer. *)
Theorem scpi_shortcuts_connected {E : Type} (T : Transport E) (s : state E)
    (k : string) (h : handle) :
  Dict.get k (instruments s) = Some h ->
  (let r := reset_instrument T k s in
   match visa_write T h "*RST" (env (wld s)) with
   | (Ok _, dt, _) =>
       fst r = Ok true /\
       new_events s (snd r) = [EvWrite h "*RST" (Ok tt); EvSleep 2000] /\
       clock (wld (snd r)) = clock (wld s) + Z.of_N dt + 2000
   | (Raise x, _, _) =>
       fst r = Ok false /\ new_events s (snd r) = [EvWrite h "*RST" (Raise x)]
   end) /\
  (let r := clear_instrument T k s in
   match visa_write T h "*CLS" (env (wld s)) with
   | (Ok _, dt, _) =>
       fst r = Ok true /\
       new_events s (snd r) = [EvWrite h "*CLS" (Ok tt); EvSleep 100] /\
       clock (wld (snd r)) = clock (wld s) + Z.of_N dt + 100
   | (Raise x, _, _) =>
       fst r = Ok false /\ new_events s (snd r) = [EvWrite h "*CLS" (Raise x)]
   end) /\
  (let r := get_identification T k s in
   match visa_query T h "*IDN?" (env (wld s)) with
   | (Ok raw, dt, _) =>
       fst r = Ok (Some (strip raw)) /\
       new_events s (snd r) = [EvQuery h "*IDN?" (Ok raw); EvSleep 100] /\
       clock (wld (snd r)) = clock (wld s) + Z.of_N dt + 100
   | (Raise x, _, _) =>
       fst r = Ok None /\ new_events s (snd r) = [EvQuery h "*IDN?" (Raise x)]
   end).
Proof.
  intros Hg. unfold reset_instrument, clear_instrument, get_identification,
    default_delay.
  rewrite (send_paths T k "*RST" 2000 h s Hg),
    (send_paths T k "*CLS" 100 h s Hg),
    (query_paths T k "*IDN?" 100 h s Hg).
  destruct (visa_write T h "*RST" (env (wld s))) as [[[[]|x1] dt1] e1];
    destruct (visa_write T h "*CLS" (env (wld s))) as [[[[]|x2] dt2] e2];
    destruct (visa_query T h "*IDN?" (env (wld s))) as [[[raw|x3] dt3] e3];
    simpl; repeat split; now apply new_events_app.
Qed.

Lemma scpi_shortcuts_connected_witness :
  let s := Rig.start Bench.three 3%nat [] "KEITHLEY,4200A" 5 in
  fst (reset_instrument Rig.visa "smu1" s) = Ok true /\
  clock (wld (snd (reset_instrument Rig.visa "smu1" s))) = 2005 /\
  fst (get_identification Rig.visa "smu1" s) = Ok (Some "KEITHLEY,4200A").
Proof.
  destruct (scpi_shortcuts_connected Rig.visa
              (Rig.start Bench.three 3%nat [] "KEITHLEY,4200A" 5)
              "smu1" 0%nat eq_refl)
    as ((Hr & _ & Hc) & _ & (Hi & _)).
  split; [exact Hr|]. split; [exact Hc|exact Hi].
Defined.

(** ** Waiting, whatever the instrument does *)

Section WaitBounds.

Context {E : Type} (T : Transport E).

Variables (k : string) (start_time timeout : Z).

Lemma slept_app (l1 l2 : list event) :
  slept (l1 ++ l2) = slept l1 + slept l2.
Proof.
  induction l1 as [|ev l1 IH]; simpl; [reflexivity|].
  destruct ev; rewrite ?IH; lia.
Qed.

(** One turn: what it may call, and how the clock moves. *)
Lemma wait_turn (s : state E) :
  exists (evs : list event) (s' : state E) (o : option bool),
    wait_iteration T k start_time timeout s = (Ok o, s') /\
    trace (wld s') = trace (wld s) ++ evs /\
    instruments s' = instruments s /\
    forallb (is_poll_event (instruments s) k) evs = true /\
    clock (wld s) + slept evs <= clock (wld s') /\
    match o with
    | Some false =>
        timeout <= clock (wld s) - start_time /\ evs = [] /\
        clock (wld s') = clock (wld s)
    | Some true =>
        clock (wld s) - start_time < timeout /\
        exists h raw,
          evs = [EvQuery h "*OPC?" (Ok raw); EvSleep 100] /\
          strip raw = "1"
    | None =>
        clock (wld s) - start_time < timeout /\
        clock (wld s) + 100 <= clock (wld s') /\
        (count is_query evs <= 1)%nat
    end.
Proof.
  destruct (Z.lt_ge_cases (clock (wld s) - start_time) timeout) as [Hlt|Hge].
  2:{ exists [], (mkState (instruments s) (log_world WARNING (wld s))),
        (Some false).
      split; [apply wait_expired; exact Hge|].
      simpl. rewrite app_nil_r. repeat split; try reflexivity; lia. }
  destruct (Dict.get k (instruments s)) as [h|] eqn:Hg.
  2:{ eexists [EvSleep 100], _, None.
      split; [apply wait_absent; assumption|].
      simpl. unfold count. simpl. repeat split; try reflexivity; lia. }
  destruct (visa_query T h "*OPC?" (env (wld s))) as [[[raw|x] dt] e'] eqn:Hq.
  2:{ eexists [EvQuery h "*OPC?" (Raise x); EvSleep 100], _, None.
      split; [eapply wait_query_raises; eassumption|].
      simpl. rewrite Hg, Nat.eqb_refl. unfold count. simpl.
      repeat split; try reflexivity; lia. }
  destruct (String.eqb_spec (strip raw) "1") as [H1|H1].
  - eexists [EvQuery h "*OPC?" (Ok raw); EvSleep 100], _, (Some true).
    split; [eapply wait_done; eassumption|].
    cbn -[strip]. rewrite Hg, Nat.eqb_refl.
    repeat split; try reflexivity; try lia.
    exists h, raw. split; [reflexivity|exact H1].
  - eexists [EvQuery h "*OPC?" (Ok raw); EvSleep 100; EvSleep 100], _, None.
    split; [eapply wait_not_done; eassumption|].
    cbn -[strip]. rewrite Hg, Nat.eqb_refl. unfold count. simpl.
    repeat split; try reflexivity; lia.
Qed.

(** A run of the loop that ended. *)
Lemma wait_loop_bounds (fuel : nat) :
  forall (s s' : state E) (b : bool),
    wait_loop T fuel k start_time timeout s = Some (Ok b, s') ->
    exists evs : list event,
      trace (wld s') = trace (wld s) ++ evs /\
      instruments s' = instruments s /\
      forallb (is_poll_event (instruments s) k) evs = true /\
      clock (wld s) + slept evs <= clock (wld s') /\
      100 * Z.of_nat (count is_query evs)
      < Z.max 0 (timeout - (clock (wld s) - start_time)) + 100 /\
      (b = false -> timeout <= clock (wld s') - start_time) /\
      (b = true ->
       exists pre h raw,
         evs = pre ++ [EvQuery h "*OPC?" (Ok raw); EvSleep 100] /\
         strip raw = "1").
Proof.
  induction fuel as [|fuel IH]; intros s s' b Hrun; [discriminate|].
  simpl in Hrun.
  destruct (wait_turn s)
    as (evs & s1 & o & Heq & Htr & Hi & Hpoll & Hclk & Hcase).
  rewrite Heq in Hrun. destruct o as [[|]|].
  - injection Hrun as <- <-.
    destruct Hcase as (Hlt & h & raw & -> & H1).
    exists [EvQuery h "*OPC?" (Ok raw); EvSleep 100].
    repeat split; try assumption.
    + unfold count. simpl. lia.
    + discriminate.
    + intros _. exists [], h, raw. split; [reflexivity|exact H1].
  - injection Hrun as <- <-.
    destruct Hcase as (Hge & -> & Hsame).
    exists []. repeat split; try assumption.
    + unfold count. simpl. lia.
    + intros _. lia.
    + discriminate.
  - destruct Hcase as (Hlt & Hstep & Hq).
    destruct (IH s1 s' b Hrun)
      as (evs' & Htr' & Hi' & Hpoll' & Hclk' & Hcnt' & Hf & Ht).
    exists (evs ++ evs'). repeat split.
    + rewrite Htr', Htr. now rewrite app_assoc.
    + congruence.
    + rewrite forallb_app, Hpoll. rewrite Hi in Hpoll'. exact Hpoll'.
    + rewrite slept_app. lia.
    + rewrite count_app. lia.
    + exact Hf.
    + intros Hb. destruct (Ht Hb) as (pre & h & raw & -> & H1).
      exists (evs ++ pre), h, raw. now rewrite app_assoc.
Qed.

End WaitBounds.

(** X9.  [wait_for_completion], whatever the instrument answers, and
    whether or not the key is registered.  It ends (given [wait_fuel
    timeout] turns or more) with a Boolean, and leaves the registry alone.
    It calls nothing but [*OPC?] queries on the handle under the key and
    0.1 s sleeps.  It makes at most one poll for every 0.1 s of the timeout
    (rounded up), and none when the timeout is not positive.  When it
    returns [False], at least the timeout has gone by; when it returns
    [True], the last thing it did was a poll answered ["1"] and the 0.1 s
    after it. *)
Theorem wait_for_completion_bounds {E : Type} (T : Transport E)
    (s : state E) (k : string) (timeout : Z) (fuel : nat) :
  (wait_fuel timeout <= fuel)%nat ->
  exists (b : bool) (s' : state E),
    wait_for_completion T fuel k timeout s = Some (Ok b, s') /\
    instruments s' = instruments s /\
    forallb (is_poll_event (instruments s) k) (new_events s s') = true /\
    (count is_query (new_events s s') <= Z.to_nat ((timeout + 99) / 100))%nat
    /\
    clock (wld s) + slept (new_events s s') <= clock (wld s') /\
    (timeout <= 0 -> b = false /\ new_events s s' = []) /\
    (b = false -> timeout <= clock (wld s') - clock (wld s)) /\
    (b = true ->
     exists pre h raw,
       new_events s s'
       = pre ++ [EvQuery h "*OPC?" (Ok raw); EvSleep 100] /\
       strip raw = "1").
Proof.
  intros Hfuel. apply wait_fuel_enough in Hfuel.
  destruct Hfuel as [Hpos Hfuel].
  destruct (wait_loop_runs T k (clock (wld s)) timeout fuel s Hpos
              ltac:(lia))
    as (b & s' & evs0 & Hrun & _).
  rewrite wait_for_completion_unfold.
  destruct (wait_loop_bounds T k (clock (wld s)) timeout fuel s s' b Hrun)
    as (evs & Htr & Hi & Hpoll & Hclk & Hcnt & Hf & Ht).
  exists b, s'. rewrite (new_events_app _ _ _ Htr).
  split; [exact Hrun|]. split; [exact Hi|]. split; [exact Hpoll|].
  assert (Hcount : (count is_query evs
                    <= Z.to_nat ((timeout + 99) / 100))%nat).
  { pose proof (Z.div_mod (timeout + 99) 100 ltac:(lia)) as Hdiv.
    pose proof (Z.mod_pos_bound (timeout + 99) 100 ltac:(lia)) as Hmod.
    lia. }
  split; [exact Hcount|]. split; [exact Hclk|].
  split; [|split; [exact Hf|exact Ht]].
  intros Hle.
  destruct fuel as [|fuel]; [lia|]. simpl in Hrun.
  rewrite wait_expired in Hrun by lia.
  injection Hrun as <- <-. simpl in Htr.
  split; [reflexivity|].
  apply (f_equal (@List.length event)) in Htr.
  rewrite length_app in Htr.
  destruct evs; [reflexivity|simpl in Htr; lia].
Qed.

Lemma wait_for_completion_bounds_witness :
  let s := Rig.start Bench.three 3%nat [Rig.OpQuery] "1" 40 in
  exists b s',
    wait_for_completion Rig.visa (wait_fuel 1000) "smu1" 1000 s
    = Some (Ok b, s') /\
    instruments s' = Bench.three /\
    (count is_query (new_events s s') <= 10)%nat.
Proof.
  destruct (wait_for_completion_bounds Rig.visa
              (Rig.start Bench.three 3%nat [Rig.OpQuery] "1" 40)
              "smu1" 1000 (wait_fuel 1000) (le_n _))
    as (b & s' & Hr & Hi & _ & Hc & _).
  exists b, s'. split; [exact Hr|]. split; [exact Hi|exact Hc].
Defined.

Lemma count_query_raise_polls (h : handle) (x : exn) (n : nat) :
  count is_query
    (List.concat (repeat [EvQuery h "*OPC?" (Raise x); EvSleep 100] n))
  = n.
Proof.
  unfold count. induction n as [|n IH]; simpl; [reflexivity|].
  now rewrite IH.
Qed.

(** X10.  An instrument whose every [*OPC?] query raises (at once; [always]
    is what the environment keeps true for that to go on) is waited for
    like a busy one, not reported: [wait_for_completion] keeps polling,
    sleeping only the 0.1 s of the loop between two polls since the sleep
    inside [query_command] is skipped, and returns [False] when the timeout
    is reached, after one poll for every 0.1 s of the timeout (rounded
    up). *)
Theorem wait_for_completion_failing_queries {E : Type} (T : Transport E)
    (s : state E) (k : string) (h : handle) (x : exn) (timeout : Z)
    (always : E -> Prop) :
  Dict.get k (instruments s) = Some h ->
  always (env (wld s)) ->
  (forall e, always e ->
             exists e', visa_query T h "*OPC?" e = (Raise x, 0%N, e') /\
                        always e') ->
  let n := Z.to_nat ((timeout + 99) / 100) in
  forall fuel,
    (wait_fuel timeout <= fuel)%nat ->
    exists s',
      wait_for_completion T fuel k timeout s = Some (Ok false, s') /\
      new_events s s'
      = List.concat
          (repeat [EvQuery h "*OPC?" (Raise x); EvSleep 100] n) /\
      count is_query (new_events s s') = n /\
      clock (wld s') = clock (wld s) + 100 * Z.of_nat n.
Proof.
  intros Hg Hinv Hq n fuel Hfuel.
  assert (Hn : timeout <= 100 * Z.of_nat n /\
               (n <> 0%nat -> 100 * (Z.of_nat n - 1) < timeout)).
  { subst n.
    pose proof (Z.div_mod (timeout + 99) 100 ltac:(lia)) as Hdiv.
    pose proof (Z.mod_pos_bound (timeout + 99) 100 ltac:(lia)) as Hmod.
    split; lia. }
  rewrite wait_for_completion_unfold.
  destruct (wait_loop_steady T k (clock (wld s)) timeout 100
              [EvQuery h "*OPC?" (Raise x); EvSleep 100]
              (fun s0 => Dict.get k (instruments s0) = Some h /\
                         always (env (wld s0)))
              ltac:(lia)) with (n := n) (fuel := fuel) (s := s)
    as (s1 & Hrun & _ & Hc & Ht & _).
  - intros s0 [Hg0 Hinv0] Hlt.
    destruct (Hq (env (wld s0)) Hinv0) as (e' & He' & Hinv').
    eexists. split; [eapply wait_query_raises; eassumption|].
    simpl. repeat split; [exact Hg0|exact Hinv'|lia].
  - split; [exact Hg|exact Hinv].
  - unfold wait_fuel in Hfuel. subst n. lia.
  - lia.
  - intros Hne. destruct Hn as [_ Hn]. specialize (Hn Hne). lia.
  - eexists. split; [exact Hrun|].
    assert (Hev : new_events s
                    (mkState (instruments s1) (log_world WARNING (wld s1)))
                  = List.concat
                      (repeat [EvQuery h "*OPC?" (Raise x); EvSleep 100] n))
      by (apply new_events_app; exact Ht).
    rewrite Hev, count_query_raise_polls. simpl.
    repeat split. exact Hc.
Qed.

Lemma wait_for_completion_failing_queries_witness :
  let s := Rig.start Bench.three 3%nat [Rig.OpQuery] "1" 0 in
  exists s',
    wait_for_completion Rig.visa (wait_fuel 1000) "smu1" 1000 s
    = Some (Ok false, s') /\
    count is_query (new_events s s') = 10%nat /\
    clock (wld s') = 1000.
Proof.
  destruct (wait_for_completion_failing_queries Rig.visa
              (Rig.start Bench.three 3%nat [Rig.OpQuery] "1" 0)
              "smu1" 0%nat (VisaIOError (-1073807343)) 1000
              (fun e => Rig.fails e = [Rig.OpQuery] /\ Rig.cost e = 0%N)
              eq_refl (conj eq_refl eq_refl))
    with (fuel := wait_fuel 1000)
    as (s' & Hr & _ & Hc & Hclk).
  - intros e [Hf Hcost]. exists e. split; [|now split].
    simpl. unfold Rig.reply_of, Rig.failing. now rewrite Hf, Hcost.
  - apply le_n.
  - exists s'. split; [exact Hr|]. split; [exact Hc|exact Hclk].
Defined.

(** ** Using a key after it was disconnected; closing twice *)

(** X11.  After a [disconnect_instrument] that returned [True], the key is
    free: [send_command], [query_command], [read_response] and a second
    [disconnect_instrument] on it return their failure values without a
    call to the transport, and [wait_for_completion] on it does not return
    [True].  After a [disconnect_instrument] whose close raised, the handle
    is still registered, and a second [disconnect_instrument] calls close on
    that same handle again. *)
Theorem after_disconnect {E : Type} (T : Transport E) (s : state E)
    (k : string) (h : handle) :
  Dict.wf (instruments s) ->
  Dict.get k (instruments s) = Some h ->
  let r := disconnect_instrument T k s in
  let s1 := snd r in
  (fst r = Ok true ->
   (forall command delay,
       fst (send_command T k command delay s1) = Ok false /\
       new_events s1 (snd (send_command T k command delay s1)) = []) /\
   (forall command delay,
       fst (query_command T k command delay s1) = Ok None /\
       new_events s1 (snd (query_command T k command delay s1)) = []) /\
   (fst (read_response T k s1) = Ok None /\
    new_events s1 (snd (read_response T k s1)) = []) /\
   (fst (disconnect_instrument T k s1) = Ok false /\
    new_events s1 (snd (disconnect_instrument T k s1)) = []) /\
   (forall fuel timeout s2,
       wait_for_completion T fuel k timeout s1 <> Some (Ok true, s2))) /\
  (fst r = Ok false ->
   exists r2,
     new_events s1 (snd (disconnect_instrument T k s1)) = [EvClose h r2]).
Proof.
  intros Hwf Hg r s1. subst s1 r.
  destruct (visa_close T h (env (wld s))) as [[[[]|x] dt] e'] eqn:Hc.
  - rewrite (disconnect_closed T k h s dt e' Hg Hc). simpl.
    split; [intros _|discriminate].
    set (s1 := mkState (Dict.del k (instruments s))
                 (after_call (wld s) (EvClose h (Ok tt)) dt e' INFO)).
    assert (Hg1 : Dict.get k (instruments s1) = None)
      by (now apply DictFacts.get_del_same).
    repeat split.
    + now rewrite send_absent.
    + rewrite send_absent by exact Hg1. now apply new_events_same.
    + now rewrite query_absent.
    + rewrite query_absent by exact Hg1. now apply new_events_same.
    + now rewrite read_absent.
    + rewrite read_absent by exact Hg1. now apply new_events_same.
    + now rewrite disconnect_absent.
    + rewrite disconnect_absent by exact Hg1. now apply new_events_same.
    + intros fuel timeout s2 Htrue.
      rewrite wait_for_completion_unfold in Htrue.
      destruct (wait_loop_bounds T k _ timeout fuel s1 s2 true Htrue)
        as (evs & _ & _ & Hpoll & _ & _ & _ & Ht).
      destruct (Ht eq_refl) as (pre & h0 & raw & -> & _).
      rewrite forallb_app in Hpoll. simpl in Hpoll, Hg1.
      rewrite Hg1 in Hpoll. simpl in Hpoll.
      rewrite !andb_false_r in Hpoll. discriminate.
  - rewrite (disconnect_close_raises T k h s x dt e' Hg Hc). simpl.
    split; [discriminate|intros _].
    set (s1 := mkState (instruments s)
                 (after_call (wld s) (EvClose h (Raise x)) dt e' ERROR)).
    destruct (visa_close T h (env (wld s1))) as [[[[]|x2] dt2] e2] eqn:Hc2.
    + exists (Ok tt).
      rewrite (disconnect_closed T k h s1 dt2 e2 Hg Hc2).
      now apply new_events_app.
    + exists (Raise x2).
      rewrite (disconnect_close_raises T k h s1 x2 dt2 e2 Hg Hc2).
      now apply new_events_app.
Qed.

Lemma after_disconnect_witness :
  let s := Rig.start Bench.three 3%nat [] "1" 5 in
  let s1 := snd (disconnect_instrument Rig.visa "smu2" s) in
  fst (query_command Rig.visa "smu2" "*OPC?" 100 s1) = Ok None /\
  fst (disconnect_instrument Rig.visa "smu2" s1) = Ok false.
Proof.
  assert (Hwf : Dict.wf Bench.three).
  { unfold Dict.wf, Bench.three; simpl.
    repeat constructor; simpl; intuition discriminate. }
  destruct (after_disconnect Rig.visa
              (Rig.start Bench.three 3%nat [] "1" 5) "smu2" 1%nat
              Hwf eq_refl) as [H _].
  destruct (H eq_refl) as (_ & Hq & _ & Hd & _).
  split; [exact (proj1 (Hq "*OPC?" 100))|exact (proj1 Hd)].
Defined.

Section CloseAllAgain.

Context {E : Type} (T : Transport E).

Lemma close_failed_keys (d : Dict.t) :
  forall (outs : list (outcome unit)) (k : string),
    In k (Dict.keys (close_failed d outs)) -> In k (Dict.keys d).
Proof.
  induction d as [|[k0 h0] d IH]; intros [|r outs] k; simpl; try tauto.
  destruct (raised r); simpl; intros Hin.
  - destruct Hin as [->|Hin]; [now left|right; eauto].
  - right; eauto.
Qed.

Lemma close_failed_incl (d : Dict.t) :
  forall outs : list (outcome unit), incl (close_failed d outs) d.
Proof.
  induction d as [|kv d IH]; intros [|r outs]; simpl;
    try (intros x []).
  destruct (raised r).
  - intros x [<-|Hin]; [now left|right; now apply (IH outs)].
  - intros x Hin. right. now apply (IH outs).
Qed.

Lemma close_failed_wf (d : Dict.t) :
  forall outs : list (outcome unit),
    Dict.wf d -> Dict.wf (close_failed d outs).
Proof.
  unfold Dict.wf.
  induction d as [|[k0 h0] d IH]; intros [|r outs] Hwf; simpl;
    try constructor.
  inversion Hwf as [|? ? Hnin Hd]; subst.
  destruct (raised r); simpl; [|now apply IH].
  constructor; [|now apply IH].
  intros Hin. apply Hnin. eapply close_failed_keys. exact Hin.
Qed.

(** The whole of a run of [close_all_connections]. *)
Lemma close_all_trace (s : state E) :
  Dict.wf (instruments s) ->
  exists (outs : list (outcome unit)) (rm_out : outcome unit),
    fst (close_all_connections T s) = Ok tt /\
    List.length outs = List.length (instruments s) /\
    trace (wld (snd (close_all_connections T s)))
    = trace (wld s) ++ close_events (instruments s) outs
      ++ [EvRmClose rm_out] /\
    instruments (snd (close_all_connections T s))
    = close_failed (instruments s) outs.
Proof.
  intros Hwf. destruct s as [d w]. simpl in Hwf.
  destruct (close_loop T d [] w Hwf) as (outs & w' & Hrun & Hlen & Htr).
  simpl in Hrun.
  rewrite (close_all_run T (mkState d w) _ Hrun). simpl.
  destruct (visa_rm_close T (env w')) as [[rm_out dt] e'].
  exists outs, rm_out. simpl. rewrite Htr, <- app_assoc. auto.
Qed.

End CloseAllAgain.

(** X12.  [close_all_connections] may be called again: nothing guards the
    resource manager, which is closed a second time.  The second call
    closes exactly the handles that the first left registered (those whose
    close raised), and none when the first emptied the registry. *)
Theorem close_all_connections_twice {E : Type} (T : Transport E)
    (s : state E) :
  Dict.wf (instruments s) ->
  let s1 := snd (close_all_connections T s) in
  let s2 := snd (close_all_connections T s1) in
  count is_rm_close (new_events s s2) = 2%nat /\
  exists (outs2 : list (outcome unit)) (rm2 : outcome unit),
    List.length outs2 = List.length (instruments s1) /\
    new_events s1 s2
    = close_events (instruments s1) outs2 ++ [EvRmClose rm2] /\
    (instruments s1 = [] -> new_events s1 s2 = [EvRmClose rm2]) /\
    incl (instruments s2) (instruments s1) /\
    incl (instruments s1) (instruments s).
Proof.
  intros Hwf s1 s2. subst s2 s1.
  destruct (close_all_trace T s Hwf) as (outs & rm1 & _ & Hlen & Htr & Hi).
  assert (Hwf1 : Dict.wf (instruments (snd (close_all_connections T s))))
    by (rewrite Hi; now apply close_failed_wf).
  destruct (close_all_trace T _ Hwf1)
    as (outs2 & rm2 & _ & Hlen2 & Htr2 & Hi2).
  split.
  - rewrite (new_events_app s _
               ((close_events (instruments s) outs ++ [EvRmClose rm1])
                ++ close_events
                     (instruments (snd (close_all_connections T s))) outs2
                ++ [EvRmClose rm2])).
    + rewrite !count_app, !close_events_no_rm_close. reflexivity.
    + rewrite Htr2, Htr. now rewrite <- !app_assoc.
  - exists outs2, rm2. split; [exact Hlen2|].
    rewrite (new_events_app _ _ _ Htr2). split; [reflexivity|].
    split; [now intros ->|].
    split.
    + rewrite Hi2. apply close_failed_incl.
    + rewrite Hi. apply close_failed_incl.
Qed.

Lemma close_all_connections_twice_witness :
  let s := Rig.start Bench.three 3%nat [] "1" 5 in
  let s1 := snd (close_all_connections Rig.visa s) in
  let s2 := snd (close_all_connections Rig.visa s1) in
  count is_rm_close (new_events s s2) = 2%nat /\
  new_events s1 s2 = [EvRmClose (Ok tt)].
Proof.
  assert (Hwf : Dict.wf Bench.three).
  { unfold Dict.wf, Bench.three; simpl.
    repeat constructor; simpl; intuition discriminate. }
  destruct (close_all_connections_twice Rig.visa
              (Rig.start Bench.three 3%nat [] "1" 5) Hwf)
    as (H2 & _).
  split; [exact H2|reflexivity].
Defined.

(** ** The registry across calls *)

Section Registry.

Context {E : Type} (T : Transport E).

Lemma list_resources_frame (s : state E) :
  instruments (snd (list_resources T s)) = instruments s.
Proof.
  unfold_py. simpl.
  destruct (visa_list_resources T (env (wld s))) as [[[l|x] dt] e'];
    reflexivity.
Qed.

Lemma send_frame (k command : string) (delay : Z) (s : state E) :
  instruments (snd (send_command T k command delay s)) = instruments s.
Proof.
  destruct (Dict.get k (instruments s)) as [h|] eqn:Hg.
  - rewrite (send_paths T k command delay h s Hg).
    destruct (visa_write T h command (env (wld s))) as [[[[]|x] dt] e'];
      [destruct (sleepable delay)|]; reflexivity.
  - now rewrite send_absent.
Qed.

Lemma query_frame (k command : string) (delay : Z) (s : state E) :
  instruments (snd (query_command T k command delay s)) = instruments s.
Proof.
  destruct (Dict.get k (instruments s)) as [h|] eqn:Hg.
  - rewrite (query_paths T k command delay h s Hg).
    destruct (visa_query T h command (env (wld s))) as [[[raw|x] dt] e'];
      [destruct (sleepable delay)|]; reflexivity.
  - now rewrite query_absent.
Qed.

Lemma read_frame (k : string) (s : state E) :
  instruments (snd (read_response T k s)) = instruments s.
Proof.
  destruct (Dict.get k (instruments s)) as [h|] eqn:Hg.
  - rewrite (read_paths T k h s Hg).
    destruct (visa_read T h (env (wld s))) as [[[raw|x] dt] e'];
      reflexivity.
  - now rewrite read_absent.
Qed.

Lemma wait_frame (k : string) (timeout : Z) (s : state E) :
  instruments (after_method T (WaitForCompletion k timeout) s)
  = instruments s.
Proof.
  simpl. rewrite wait_for_completion_unfold.
  destruct (wait_fuel_enough timeout (wait_fuel timeout) (le_n _))
    as [Hpos Hfuel].
  destruct (wait_loop_runs T k (clock (wld s)) timeout (wait_fuel timeout)
              s Hpos ltac:(lia))
    as (b & s' & evs & Hrun & _ & Hi & _).
  rewrite Hrun. exact Hi.
Qed.

Lemma disconnect_registry (k : string) (s : state E) :
  instruments (snd (disconnect_instrument T k s)) = instruments s \/
  instruments (snd (disconnect_instrument T k s))
  = Dict.del k (instruments s).
Proof.
  destruct (Dict.get k (instruments s)) as [h|] eqn:Hg.
  - destruct (visa_close T h (env (wld s))) as [[[[]|x] dt] e'] eqn:Hc.
    + right. now rewrite (disconnect_closed T k h s dt e' Hg Hc).
    + left. now rewrite (disconnect_close_raises T k h s x dt e' Hg Hc).
  - left. now rewrite disconnect_absent.
Qed.

Lemma del_incl (k : string) (d : Dict.t) : incl (Dict.del k d) d.
Proof.
  induction d as [|[k0 h0] d IH]; simpl; [apply incl_refl|].
  destruct (String.eqb k k0).
  - apply incl_tl, incl_refl.
  - intros x [<-|Hin]; [now left|right; now apply IH].
Qed.

(** Each method keeps the registry a dictionary. *)
Lemma after_method_wf (m : method) (s : state E) :
  Dict.wf (instruments s) -> Dict.wf (instruments (after_method T m s)).
Proof.
  intros Hwf. destruct m.
  - simpl. now rewrite list_resources_frame.
  - simpl. destruct (connect_cases T resource_name alias s)
      as [(h & _ & -> & _)|(evs & _ & -> & _)];
      [now apply DictFacts.wf_set|exact Hwf].
  - simpl. destruct (disconnect_registry identifier s) as [->| ->];
      [exact Hwf|now apply DictFacts.wf_del].
  - simpl. now rewrite send_frame.
  - simpl. now rewrite query_frame.
  - simpl. now rewrite read_frame.
  - simpl. unfold get_identification. now rewrite query_frame.
  - simpl. unfold reset_instrument. now rewrite send_frame.
  - simpl. unfold clear_instrument. now rewrite send_frame.
  - now rewrite wait_frame.
  - simpl. destruct (close_all_trace T s Hwf) as (outs & _ & _ & _ & _ & ->).
    now apply close_failed_wf.
Qed.

End Registry.

(** X13.  Only [connect_instrument], [disconnect_instrument] and
    [close_all_connections] change the registry: every other method leaves
    it exactly as it was, whatever the transport does.
    [disconnect_instrument] and [close_all_connections] only remove
    entries; [connect_instrument] changes at most the entry under its
    key. *)
Theorem registry_changes_only_by {E : Type} (T : Transport E)
    (s : state E) (m : method) :
  (mutates m = false ->
   instruments (after_method T m s) = instruments s) /\
  (forall k, m = Disconnect k ->
             incl (instruments (after_method T m s)) (instruments s)) /\
  (m = CloseAllConnections -> Dict.wf (instruments s) ->
   incl (instruments (after_method T m s)) (instruments s)) /\
  (forall resource_name alias k',
      m = Connect resource_name alias ->
      k' <> or_else alias resource_name ->
      Dict.get k' (instruments (after_method T m s))
      = Dict.get k' (instruments s)).
Proof.
  repeat split.
  - intros Hm. destruct m; try discriminate; simpl.
    + apply list_resources_frame.
    + apply send_frame.
    + apply query_frame.
    + apply read_frame.
    + apply query_frame.
    + apply send_frame.
    + apply send_frame.
    + apply (wait_frame T identifier timeout s).
  - intros k ->. simpl.
    destruct (disconnect_registry T k s) as [-> | ->];
      [apply incl_refl|apply del_incl].
  - intros -> Hwf. simpl.
    destruct (close_all_trace T s Hwf) as (outs & _ & _ & _ & _ & ->).
    apply close_failed_incl.
  - intros resource_name alias k' -> Hne. simpl.
    destruct (connect_cases T resource_name alias s)
      as [(h & _ & -> & _)|(evs & _ & -> & _)]; [|reflexivity].
    now apply DictFacts.get_set_other.
Qed.

Lemma registry_changes_only_by_witness :
  let s := Rig.start Bench.three 3%nat [Rig.OpWrite] "1" 5 in
  instruments (after_method Rig.visa (ResetInstrument "smu1") s)
  = Bench.three /\
  instruments (after_method Rig.visa (WaitForCompletion "scope" 300) s)
  = Bench.three.
Proof.
  split.
  - exact (proj1 (registry_changes_only_by Rig.visa
                    (Rig.start Bench.three 3%nat [Rig.OpWrite] "1" 5)
                    (ResetInstrument "smu1")) eq_refl).
  - exact (proj1 (registry_changes_only_by Rig.visa
                    (Rig.start Bench.three 3%nat [Rig.OpWrite] "1" 5)
                    (WaitForCompletion "scope" 300)) eq_refl).
Defined.

(** X14.  The registry of a controller is a dictionary for as long as the
    controller lives: it is empty when [__init__] returns, and no sequence
    of method calls, whatever the transport answers, makes it hold a key
    twice. *)
Theorem registry_stays_a_dict {E : Type} (T : Transport E)
    (ms : list method) :
  (forall s : state E,
      Dict.wf (instruments s) ->
      Dict.wf (instruments (after_methods T ms s))) /\
  (forall (visa_library : option string) (w : world E) (gpib : state E),
      fst (__init__ T visa_library w) = Ok gpib ->
      Dict.wf (instruments (after_methods T ms gpib))).
Proof.
  assert (Hkeep : forall s : state E,
             Dict.wf (instruments s) ->
             Dict.wf (instruments (after_methods T ms s))).
  { unfold after_methods. induction ms as [|m ms IH]; intros s Hwf; simpl.
    - exact Hwf.
    - apply IH. now apply after_method_wf. }
  split; [exact Hkeep|].
  intros visa_library w gpib Hinit. apply Hkeep.
  unfold __init__ in Hinit.
  destruct (transport_call _ _ w) as [[[]|x] w1]; simpl in Hinit;
    [|discriminate].
  injection Hinit as <-. apply DictFacts.wf_empty.
Qed.

Lemma registry_stays_a_dict_witness :
  let w := Rig.world0 [Rig.OpClose] ["GPIB0::10::INSTR"] "1" 5 in
  match fst (__init__ Rig.visa None w) with
  | Ok gpib =>
      Dict.wf
        (instruments
           (after_methods Rig.visa
              [Connect "GPIB0::10::INSTR" (Some "smu");
               Connect "GPIB0::11::INSTR" (Some "smu");
               Connect "GPIB0::11::INSTR" None;
               Disconnect "smu"; WaitForCompletion "smu" 250;
               CloseAllConnections; Connect "GPIB0::10::INSTR" None]
              gpib))
  | Raise _ => False
  end.
Proof.
  exact (proj2 (registry_stays_a_dict Rig.visa
                  [Connect "GPIB0::10::INSTR" (Some "smu");
                   Connect "GPIB0::11::INSTR" (Some "smu");
                   Connect "GPIB0::11::INSTR" None;
                   Disconnect "smu"; WaitForCompletion "smu" 250;
                   CloseAllConnections; Connect "GPIB0::10::INSTR" None])
           None (Rig.world0 [Rig.OpClose] ["GPIB0::10::INSTR"] "1" 5)
           _ eq_refl).
Defined.

(** ** The example scripts *)

Section ScriptFacts.

Context {E : Type} (T : Transport E).

Lemma trace_new_events (s s' : state E) (evs : list event) :
  trace (wld s') = trace (wld s) ++ evs ->
  trace (wld s') = trace (wld s) ++ new_events s s'.
Proof. intros H. now rewrite (new_events_app _ _ _ H). Qed.

Lemma list_resources_run (s : state E) :
  exists res_r : outcome (list string),
    fst (list_resources T s)
    = Ok (match res_r with Ok l => l | Raise _ => [] end) /\
    trace (wld (snd (list_resources T s)))
    = trace (wld s) ++ [EvListResources res_r] /\
    instruments (snd (list_resources T s)) = instruments s.
Proof.
  unfold_py. simpl.
  destruct (visa_list_resources T (env (wld s))) as [[[l|x] dt] e'];
    simpl; [exists (Ok l)|exists (Raise x)]; repeat split.
Qed.

(** [connect_instrument] on an empty registry. *)
Lemma connect_run_empty (resource_name : string) (alias : option string)
    (s : state E) :
  instruments s = [] ->
  let r := connect_instrument T resource_name alias s in
  (exists h,
      fst r = Ok true /\
      instruments (snd r) = [(or_else alias resource_name, h)] /\
      trace (wld (snd r))
      = trace (wld s) ++ connect_events resource_name h)
  \/
  (exists x evs,
      fst r = Ok false /\
      instruments (snd r) = [] /\
      trace (wld (snd r)) = trace (wld s) ++ evs /\
      connect_failure resource_name x evs).
Proof.
  intros Hempty r. subst r.
  destruct (connect_total T resource_name alias s)
    as (b & evs & _ & Htr & _).
  apply trace_new_events in Htr.
  destruct (connect_paths T resource_name alias s)
    as [(h & Hr & Hi & Hev)|(x & Hr & Hi & Hf)].
  - left. exists h. rewrite Hempty in Hi. rewrite Hev in Htr. auto.
  - right. exists x, (new_events s (snd (connect_instrument T resource_name
                                          alias s))).
    rewrite Hempty in Hi. auto.
Qed.

(** [disconnect_instrument] of the only entry. *)
Lemma disconnect_run_single (k : string) (h : handle) (s : state E) :
  instruments s = [(k, h)] ->
  let r := disconnect_instrument T k s in
  (fst r = Ok true /\ instruments (snd r) = [] /\
   trace (wld (snd r)) = trace (wld s) ++ [EvClose h (Ok tt)])
  \/
  (exists x,
      fst r = Ok false /\ instruments (snd r) = [(k, h)] /\
      trace (wld (snd r)) = trace (wld s) ++ [EvClose h (Raise x)]).
Proof.
  intros Hi r. subst r.
  assert (Hg : Dict.get k (instruments s) = Some h)
    by (rewrite Hi; simpl; now rewrite String.eqb_refl).
  destruct (visa_close T h (env (wld s))) as [[[[]|x] dt] e'] eqn:Hc.
  - left. rewrite (disconnect_closed T k h s dt e' Hg Hc). simpl.
    rewrite Hi. simpl. now rewrite String.eqb_refl.
  - right. exists x.
    rewrite (disconnect_close_raises T k h s x dt e' Hg Hc). simpl. auto.
Qed.

(** [close_all_connections] on a registry of at most one entry. *)
Lemma close_all_run_empty (s : state E) :
  instruments s = [] ->
  exists rm_r,
    fst (close_all_connections T s) = Ok tt /\
    trace (wld (snd (close_all_connections T s)))
    = trace (wld s) ++ [EvRmClose rm_r].
Proof.
  intros Hi.
  destruct (close_all_trace T s) as (outs & rm_r & Hr & _ & Htr & _).
  { rewrite Hi. constructor. }
  exists rm_r. rewrite Hi in Htr. simpl in Htr. auto.
Qed.

Lemma close_all_run_single (k : string) (h : handle) (s : state E) :
  instruments s = [(k, h)] ->
  exists r2 rm_r,
    fst (close_all_connections T s) = Ok tt /\
    trace (wld (snd (close_all_connections T s)))
    = trace (wld s) ++ [EvClose h r2; EvRmClose rm_r].
Proof.
  intros Hi.
  destruct (close_all_trace T s) as (outs & rm_r & Hr & Hlen & Htr & _).
  { rewrite Hi. repeat constructor. intros []. }
  rewrite Hi in Htr, Hlen. simpl in Hlen.
  destruct outs as [|r2 [|? ?]]; try discriminate.
  exists r2, rm_r. simpl in Htr. auto.
Qed.

End ScriptFacts.

Section ScriptRuns.

Context {E : Type} (T : Transport E).

(** The body of [test_connection], from a controller just constructed. *)
Lemma test_connection_body_run (gpib : state E) :
  instruments gpib = [] ->
  exists (res_r : outcome (list string)) (evs : list event)
         (rm_r : outcome unit) (s' : state E),
    let resources := match res_r with Ok l => l | Raise _ => [] end in
    test_connection_body T gpib = (Ok tt, s', [PrintAvailable resources]) /\
    trace (wld s')
    = trace (wld gpib) ++ [EvListResources res_r] ++ evs
      ++ [EvRmClose rm_r] /\
    match resources with
    | [] => evs = []
    | address :: _ =>
        (exists x, connect_failure address x evs) \/
        (exists h, evs = connect_events address h ++ [EvClose h (Ok tt)]) \/
        (exists h x r2,
            evs = connect_events address h
                  ++ [EvClose h (Raise x); EvClose h r2])
    end.
Proof.
  intros Hempty.
  destruct (list_resources_run T gpib) as (res_r & Hr1 & Ht1 & Hi1).
  unfold test_connection_body, sbind, call, print, sret.
  destruct (list_resources T gpib) as [r1 s1]. simpl in Hr1, Ht1, Hi1.
  subst r1. rewrite Hempty in Hi1.
  exists res_r.
  destruct (match res_r with Ok l => l | Raise _ => [] end)
    as [|address rest] eqn:Hres.
  - destruct (close_all_run_empty T s1 Hi1) as (rm_r & Hr & Ht).
    destruct (close_all_connections T s1) as [r3 s3]. simpl in Hr, Ht.
    subst r3. exists [], rm_r, s3. simpl.
    repeat split. rewrite Ht, Ht1, <- app_assoc. reflexivity.
  - destruct (connect_run_empty T address (Some "my_instrument") s1 Hi1)
      as [(h & Hr2 & Hi2 & Ht2)|(x & evs & Hr2 & Hi2 & Ht2 & Hf)].
    + destruct (connect_instrument T address (Some "my_instrument") s1)
        as [r2 s2]. simpl in Hr2, Hi2, Ht2. subst r2.
      destruct (disconnect_run_single T "my_instrument" h s2 Hi2)
        as [(Hr3 & Hi3 & Ht3)|(x & Hr3 & Hi3 & Ht3)].
      * destruct (disconnect_instrument T "my_instrument" s2) as [r3 s3].
        simpl in Hr3, Hi3, Ht3. subst r3.
        destruct (close_all_run_empty T s3 Hi3) as (rm_r & Hr & Ht).
        destruct (close_all_connections T s3) as [r4 s4]. simpl in Hr, Ht.
        subst r4.
        exists (connect_events address h ++ [EvClose h (Ok tt)]), rm_r, s4.
        simpl. repeat split.
        -- rewrite Ht, Ht3, Ht2, Ht1. now rewrite <- !app_assoc.
        -- right. left. now exists h.
      * destruct (disconnect_instrument T "my_instrument" s2) as [r3 s3].
        simpl in Hr3, Hi3, Ht3. subst r3.
        destruct (close_all_run_single T "my_instrument" h s3 Hi3)
          as (r2 & rm_r & Hr & Ht).
        destruct (close_all_connections T s3) as [r4 s4]. simpl in Hr, Ht.
        subst r4.
        exists (connect_events address h
                ++ [EvClose h (Raise x); EvClose h r2]), rm_r, s4.
        simpl. repeat split.
        -- rewrite Ht, Ht3, Ht2, Ht1. now rewrite <- !app_assoc.
        -- right. right. now exists h, x, r2.
    + destruct (connect_instrument T address (Some "my_instrument") s1)
        as [r2 s2]. simpl in Hr2, Hi2, Ht2. subst r2.
      destruct (close_all_run_empty T s2 Hi2) as (rm_r & Hr & Ht).
      destruct (close_all_connections T s2) as [r4 s4]. simpl in Hr, Ht.
      subst r4. exists evs, rm_r, s4. simpl. repeat split.
      * rewrite Ht, Ht2, Ht1. now rewrite <- !app_assoc.
      * left. now exists x.
Qed.

End ScriptRuns.

(** X15.  [test_connection].  When [pyvisa.ResourceManager()] raises, the
    exception comes out, and nothing else was called or printed.
    Otherwise the function returns, having printed the resources once (an
    empty list when the enumeration failed), and its last call closes the
    resource manager.  In between, with no resource it does nothing; with
    one, it connects the first resource as ["my_instrument"] and then: a
    failed connect is followed by no close (a handle already opened stays
    open); a successful one is closed once, or, when that close raises,
    twice, the second time by [close_all_connections]. *)
Theorem test_connection_spec {E : Type} (T : Transport E) (w : world E) :
  match visa_ResourceManager T None (env w) with
  | (Raise x, _, _) =>
      fst (fst (test_connection T w)) = Raise x /\
      trace (snd (fst (test_connection T w)))
      = trace w ++ [EvResourceManager None (Raise x)] /\
      snd (test_connection T w) = []
  | (Ok _, _, _) =>
      fst (fst (test_connection T w)) = Ok tt /\
      exists (res_r : outcome (list string)) (evs : list event)
             (rm_r : outcome unit),
        let resources := match res_r with Ok l => l | Raise _ => [] end in
        trace (snd (fst (test_connection T w)))
        = trace w
          ++ [EvResourceManager None (Ok tt); EvListResources res_r]
          ++ evs ++ [EvRmClose rm_r] /\
        snd (test_connection T w) = [PrintAvailable resources] /\
        match resources with
        | [] => evs = []
        | address :: _ =>
            (exists x, connect_failure address x evs) \/
            (exists h,
                evs = connect_events address h ++ [EvClose h (Ok tt)]) \/
            (exists h x r2,
                evs = connect_events address h
                      ++ [EvClose h (Raise x); EvClose h r2])
        end
  end.
Proof.
  unfold test_connection, __init__, transport_call. simpl.
  destruct (visa_ResourceManager T None (env w)) as [[[[]|x] dt] e'].
  - set (gpib := mkState Dict.empty _).
    destruct (test_connection_body_run T gpib eq_refl)
      as (res_r & evs & rm_r & s' & Hrun & Htr & Hshape).
    rewrite Hrun. simpl. split; [reflexivity|].
    exists res_r, evs, rm_r. split; [|split; [reflexivity|exact Hshape]].
    rewrite Htr. simpl. now rewrite <- app_assoc.
  - simpl. repeat split.
Qed.

Section LgadRuns.

Context {E : Type} (T : Transport E).

Lemma send_run_default (k command : string) (h : handle) (s : state E) :
  Dict.get k (instruments s) = Some h ->
  exists wr : outcome unit,
    fst (send_command T k command default_delay s) = Ok (is_ok wr) /\
    instruments (snd (send_command T k command default_delay s))
    = instruments s /\
    trace (wld (snd (send_command T k command default_delay s)))
    = trace (wld s)
      ++ EvWrite h command wr
         :: (if is_ok wr then [EvSleep 100] else []).
Proof.
  intros Hg. rewrite (send_paths T k command default_delay h s Hg).
  destruct (visa_write T h command (env (wld s))) as [[[[]|x] dt] e'];
    simpl; [exists (Ok tt)|exists (Raise x)]; repeat split.
Qed.

Lemma ParameterAnalyzer4200ASCS_SMUs_body_run (lgad_iv : state E) :
  instruments lgad_iv = [] ->
  exists (res_r : outcome (list string)) (evs : list event)
         (rm_r : outcome unit) (s' : state E) (out : list printed),
    let resources := match res_r with Ok l => l | Raise _ => [] end in
    ParameterAnalyzer4200ASCS_SMUs_body T lgad_iv
    = (Ok tt, s', PrintAvailable resources :: out) /\
    trace (wld s')
    = trace (wld lgad_iv) ++ [EvListResources res_r] ++ evs
      ++ [EvRmClose rm_r] /\
    match resources with
    | [] => evs = [] /\ out = []
    | address :: _ =>
        (exists x, connect_failure address x evs /\ out = []) \/
        (exists h wr closes,
            evs = connect_events address h
                  ++ [EvWrite h "CH1, 'V1', 'I1', 1, 3" wr]
                  ++ (if is_ok wr then [EvSleep 100] else [])
                  ++ closes /\
            closes_of h closes /\
            out = [PrintLine (if is_ok wr
                              then "Command sent successfully"
                              else "Failed to send command")])
    end.
Proof.
  intros Hempty.
  destruct (list_resources_run T lgad_iv) as (res_r & Hr1 & Ht1 & Hi1).
  unfold ParameterAnalyzer4200ASCS_SMUs_body, sbind, call, print, sret.
  destruct (list_resources T lgad_iv) as [r1 s1]. simpl in Hr1, Ht1, Hi1.
  subst r1. rewrite Hempty in Hi1.
  exists res_r.
  destruct (match res_r with Ok l => l | Raise _ => [] end)
    as [|address rest] eqn:Hres.
  - destruct (close_all_run_empty T s1 Hi1) as (rm_r & Hr & Ht).
    destruct (close_all_connections T s1) as [r3 s3]. simpl in Hr, Ht.
    subst r3. exists [], rm_r, s3, []. simpl.
    repeat split. rewrite Ht, Ht1, <- app_assoc. reflexivity.
  - destruct (connect_run_empty T address (Some "my_instrument") s1 Hi1)
      as [(h & Hr2 & Hi2 & Ht2)|(x & evs & Hr2 & Hi2 & Ht2 & Hf)].
    + destruct (connect_instrument T address (Some "my_instrument") s1)
        as [r2 s2]. simpl in Hr2, Hi2, Ht2. subst r2.
      destruct (send_run_default "my_instrument" "CH1, 'V1', 'I1', 1, 3"
                  h s2) as (wr & Hrs & His & Hts).
      { rewrite Hi2. reflexivity. }
      destruct (send_command T "my_instrument" "CH1, 'V1', 'I1', 1, 3"
                  default_delay s2) as [rs ss].
      simpl in Hrs, His, Hts. subst rs. rewrite Hi2 in His.
      assert (Hout : forall x : outcome unit,
                 [PrintLine (if is_ok x then "Command sent successfully"
                             else "Failed to send command")]
                 = (if is_ok x
                    then [PrintLine "Command sent successfully"]
                    else [PrintLine "Failed to send command"]))
        by (intros [?|?]; reflexivity).
      destruct (disconnect_run_single T "my_instrument" h ss His)
        as [(Hr3 & Hi3 & Ht3)|(x & Hr3 & Hi3 & Ht3)].
      * destruct (close_all_run_empty T _ Hi3) as (rm_r & Hr & Ht).
        exists (connect_events address h
                ++ [EvWrite h "CH1, 'V1', 'I1', 1, 3" wr]
                ++ (if is_ok wr then [EvSleep 100] else [])
                ++ [EvClose h (Ok tt)]), rm_r,
          (snd (close_all_connections T
                  (snd (disconnect_instrument T "my_instrument" ss)))),
          [PrintLine (if is_ok wr then "Command sent successfully"
                      else "Failed to send command")].
        split; [|split].
        -- destruct (is_ok wr); simpl;
             destruct (disconnect_instrument T "my_instrument" ss)
               as [r3 s3]; simpl in *; subst r3;
             destruct (close_all_connections T s3) as [r4 s4];
             simpl in *; subst r4; reflexivity.
        -- rewrite Ht, Ht3, Hts, Ht2, Ht1.
           repeat (rewrite <- app_assoc; simpl).
           destruct (is_ok wr); reflexivity.
        -- right. exists h, wr, [EvClose h (Ok tt)].
           repeat split. now left.
      * destruct (close_all_run_single T "my_instrument" h _ Hi3)
          as (r2 & rm_r & Hr & Ht).
        exists (connect_events address h
                ++ [EvWrite h "CH1, 'V1', 'I1', 1, 3" wr]
                ++ (if is_ok wr then [EvSleep 100] else [])
                ++ [EvClose h (Raise x); EvClose h r2]), rm_r,
          (snd (close_all_connections T
                  (snd (disconnect_instrument T "my_instrument" ss)))),
          [PrintLine (if is_ok wr then "Command sent successfully"
                      else "Failed to send command")].
        split; [|split].
        -- destruct (is_ok wr); simpl;
             destruct (disconnect_instrument T "my_instrument" ss)
               as [r3 s3]; simpl in *; subst r3;
             destruct (close_all_connections T s3) as [r4 s4];
             simpl in *; subst r4; reflexivity.
        -- rewrite Ht, Ht3, Hts, Ht2, Ht1.
           repeat (rewrite <- app_assoc; simpl).
           destruct (is_ok wr); reflexivity.
        -- right. exists h, wr, [EvClose h (Raise x); EvClose h r2].
           repeat split. right. now exists x, r2.
    + destruct (connect_instrument T address (Some "my_instrument") s1)
        as [r2 s2]. simpl in Hr2, Hi2, Ht2. subst r2.
      destruct (close_all_run_empty T s2 Hi2) as (rm_r & Hr & Ht).
      destruct (close_all_connections T s2) as [r4 s4]. simpl in Hr, Ht.
      subst r4. exists evs, rm_r, s4, []. simpl. repeat split.
      * rewrite Ht, Ht2, Ht1. now rewrite <- !app_assoc.
      * left. now exists x.
Qed.

End LgadRuns.

(** X16.  [ParameterAnalyzer4200ASCS_SMUs] of LGAD_IV.py behaves as
    [test_connection] does, with one command in between: when the first
    resource is connected, the string ["CH1, 'V1', 'I1', 1, 3"] is written
    once, to the handle just opened, before that handle is closed; the
    write is followed by the 0.1 s sleep and ["Command sent successfully"]
    when it succeeds, and by ["Failed to send command"] alone when it
    raises.  Nothing is written when no resource is listed or the connect
    fails. *)
Theorem ParameterAnalyzer4200ASCS_SMUs_spec {E : Type} (T : Transport E)
    (w : world E) :
  let run := ParameterAnalyzer4200ASCS_SMUs T w in
  match visa_ResourceManager T None (env w) with
  | (Raise x, _, _) =>
      fst (fst run) = Raise x /\
      trace (snd (fst run)) = trace w ++ [EvResourceManager None (Raise x)]
      /\ snd run = []
  | (Ok _, _, _) =>
      fst (fst run) = Ok tt /\
      exists (res_r : outcome (list string)) (evs : list event)
             (rm_r : outcome unit) (out : list printed),
        let resources := match res_r with Ok l => l | Raise _ => [] end in
        trace (snd (fst run))
        = trace w
          ++ [EvResourceManager None (Ok tt); EvListResources res_r]
          ++ evs ++ [EvRmClose rm_r] /\
        snd run = PrintAvailable resources :: out /\
        match resources with
        | [] => evs = [] /\ out = []
        | address :: _ =>
            (exists x, connect_failure address x evs /\ out = []) \/
            (exists h wr closes,
                evs = connect_events address h
                      ++ [EvWrite h "CH1, 'V1', 'I1', 1, 3" wr]
                      ++ (if is_ok wr then [EvSleep 100] else [])
                      ++ closes /\
                closes_of h closes /\
                out = [PrintLine (if is_ok wr
                                  then "Command sent successfully"
                                  else "Failed to send command")])
        end
  end.
Proof.
  unfold ParameterAnalyzer4200ASCS_SMUs, LGAD_IV.__init__, __init__,
    transport_call. simpl.
  destruct (visa_ResourceManager T None (env w)) as [[[[]|x] dt] e'].
  - set (lgad_iv := mkState Dict.empty _).
    destruct (ParameterAnalyzer4200ASCS_SMUs_body_run T lgad_iv eq_refl)
      as (res_r & evs & rm_r & s' & out & Hrun & Htr & Hshape).
    rewrite Hrun. simpl. split; [reflexivity|].
    exists res_r, evs, rm_r, out.
    split; [|split; [reflexivity|exact Hshape]].
    rewrite Htr. simpl. now rewrite <- app_assoc.
  - simpl. repeat split.
Qed.

(** X17.  The two [__main__] blocks do not raise: they print their banner
    (a title and a rule of thirty ["="]), run their function, and make the
    calls it makes.  Exactly when [pyvisa.ResourceManager()] raised, they
    go on to print the error and the note (four more lines in GPIB.py,
    three in LGAD_IV.py); otherwise the banner is followed only by what the
    function printed. *)
Theorem main_blocks_spec {E : Type} (T : Transport E) (w : world E) :
  let failed := raised (fst (fst (visa_ResourceManager T None (env w)))) in
  str_mul "=" 30 = "==============================" /\
  (fst (fst (GPIB_main T w)) = Ok tt /\
   snd (fst (GPIB_main T w)) = snd (fst (test_connection T w)) /\
   exists note,
     snd (GPIB_main T w)
     = [PrintLine "GPIB Communication Test";
        PrintLine "=============================="]
       ++ snd (test_connection T w) ++ note /\
     List.length note = (if failed then 5 else 0)%nat) /\
  (fst (fst (LGAD_IV_main T w)) = Ok tt /\
   snd (fst (LGAD_IV_main T w))
   = snd (fst (ParameterAnalyzer4200ASCS_SMUs T w)) /\
   exists note,
     snd (LGAD_IV_main T w)
     = [PrintLine "LGAD IV Characterization Test";
        PrintLine "=============================="]
       ++ snd (ParameterAnalyzer4200ASCS_SMUs T w) ++ note /\
     List.length note = (if failed then 4 else 0)%nat).
Proof.
  intros failed. subst failed. split; [reflexivity|].
  pose proof (test_connection_body_run T) as Hbody.
  pose proof (ParameterAnalyzer4200ASCS_SMUs_body_run T) as Hbody'.
  unfold GPIB_main, LGAD_IV_main, test_connection,
    ParameterAnalyzer4200ASCS_SMUs, LGAD_IV.__init__, __init__,
    transport_call. simpl.
  destruct (visa_ResourceManager T None (env w)) as [[[[]|x] dt] e']; simpl.
  - match goal with
    | |- context [test_connection_body T ?g] => set (gpib := g)
    end.
    destruct (Hbody gpib eq_refl) as (? & ? & ? & s1 & Hrun & _).
    destruct (Hbody' gpib eq_refl) as (? & ? & ? & s2 & ? & Hrun' & _).
    rewrite Hrun, Hrun'. simpl.
    repeat split; exists []; simpl; now rewrite ?app_nil_r.
  - repeat split; eexists; split; reflexivity.
Qed.

(** ** No closed handle stays registered *)

Section Live.

Context {E : Type} (T : Transport E).

Lemma opened_app (l1 l2 : list event) :
  opened (l1 ++ l2) = opened l1 ++ opened l2.
Proof.
  induction l1 as [|ev l1 IH]; simpl; [reflexivity|].
  destruct ev as [| |? [?|?]| | | | | | | | |]; simpl; now rewrite ?IH.
Qed.

Lemma closed_app (l1 l2 : list event) :
  closed (l1 ++ l2) = closed l1 ++ closed l2.
Proof.
  induction l1 as [|ev l1 IH]; simpl; [reflexivity|].
  destruct ev as [| | | | | | | | |? [?|?]| |]; simpl; now rewrite ?IH.
Qed.

Lemma poll_events_quiet (d : Dict.t) (k : string) (evs : list event) :
  forallb (is_poll_event d k) evs = true ->
  opened evs = [] /\ closed evs = [].
Proof.
  induction evs as [|ev evs IH]; simpl; [auto|].
  destruct ev; simpl; try discriminate;
    intros H; apply andb_prop in H; destruct H as [_ H]; auto.
Qed.

Lemma no_close_calls_closed (evs : list event) :
  (forall h, close_calls h evs = 0%nat) -> closed evs = [].
Proof.
  unfold close_calls, count.
  induction evs as [|ev evs IH]; intros H; [reflexivity|].
  destruct ev as [| | | | | | | | |h r| |]; simpl in *;
    try (apply IH; exact H).
  - specialize (H h) as Hh. rewrite Nat.eqb_refl in Hh. discriminate.
Qed.

(** A state reached by calls that neither opened nor closed anything, and
    left the registry alone. *)
Lemma live_quiet (s s' : state E) (evs : list event) :
  live_registry s ->
  instruments s' = instruments s ->
  trace (wld s') = trace (wld s) ++ evs ->
  closed evs = [] ->
  live_registry s'.
Proof.
  intros (Hwf & Hnd & Hvo & Hco & Hlive) Hi Ht Hc.
  unfold live_registry.
  rewrite Hi, Ht, opened_app, closed_app, Hc, app_nil_r.
  repeat split; try assumption.
  - intros h Hin. apply in_or_app. left. now apply Hvo.
  - intros h Hin. apply in_or_app. left. now apply Hco.
Qed.

Lemma values_set (k : string) (h h' : handle) (d : Dict.t) :
  In h' (Dict.values (Dict.set k h d)) -> h' = h \/ In h' (Dict.values d).
Proof.
  induction d as [|[k0 h0] d IH]; simpl.
  - intros [<-|[]]. now left.
  - destruct (String.eqb k k0); simpl; intuition.
Qed.

Lemma values_set_nodup (k : string) (h : handle) (d : Dict.t) :
  NoDup (Dict.values d) -> ~ In h (Dict.values d) ->
  NoDup (Dict.values (Dict.set k h d)).
Proof.
  induction d as [|[k0 h0] d IH]; simpl; intros Hnd Hnin.
  - constructor; [intros []|constructor].
  - inversion Hnd as [|? ? Hn0 Hd]; subst.
    destruct (String.eqb k k0); simpl.
    + constructor; [tauto|exact Hd].
    + constructor; [|apply IH; tauto].
      intros Hin. apply values_set in Hin. destruct Hin as [->|Hin]; tauto.
Qed.

Lemma values_del (k : string) (h' : handle) (d : Dict.t) :
  In h' (Dict.values (Dict.del k d)) -> In h' (Dict.values d).
Proof.
  induction d as [|[k0 h0] d IH]; simpl; [tauto|].
  destruct (String.eqb k k0); simpl; intuition.
Qed.

Lemma values_del_nodup (k : string) (d : Dict.t) :
  NoDup (Dict.values d) -> NoDup (Dict.values (Dict.del k d)).
Proof.
  induction d as [|[k0 h0] d IH]; simpl; intros Hnd; [exact Hnd|].
  inversion Hnd as [|? ? Hn0 Hd]; subst.
  destruct (String.eqb k k0); simpl; [exact Hd|].
  constructor; [|now apply IH].
  intros Hin. apply Hn0. eapply values_del. exact Hin.
Qed.

(** The handle under a deleted key is no longer a value. *)
Lemma values_del_gone (k : string) (h : handle) (d : Dict.t) :
  NoDup (Dict.values d) -> Dict.get k d = Some h ->
  ~ In h (Dict.values (Dict.del k d)).
Proof.
  induction d as [|[k0 h0] d IH]; simpl; intros Hnd Hg; [discriminate|].
  inversion Hnd as [|? ? Hn0 Hd]; subst.
  destruct (String.eqb k k0); simpl.
  - injection Hg as ->. exact Hn0.
  - intros [->|Hin].
    + apply Hn0. clear - Hg.
      induction d as [|[k1 h1] d IH]; simpl in *; [discriminate|].
      destruct (String.eqb k k1); [injection Hg as ->; now left|].
      right. now apply IH.
    + now apply (IH Hd Hg).
Qed.

Lemma get_in_values (k : string) (h : handle) (d : Dict.t) :
  Dict.get k d = Some h -> In h (Dict.values d).
Proof.
  induction d as [|[k1 h1] d IH]; simpl; [discriminate|].
  destruct (String.eqb k k1); [intros [= ->]; now left|].
  intros Hg. right. now apply IH.
Qed.

Lemma live_disconnect (k : string) (s : state E) :
  live_registry s -> live_registry (snd (disconnect_instrument T k s)).
Proof.
  intros Hlive.
  destruct (Dict.get k (instruments s)) as [h|] eqn:Hg.
  2:{ rewrite disconnect_absent by exact Hg.
      apply (live_quiet s _ []); simpl; auto using app_nil_r. }
  destruct (visa_close T h (env (wld s))) as [[[[]|x] dt] e'] eqn:Hc.
  2:{ rewrite (disconnect_close_raises T k h s x dt e' Hg Hc).
      now apply (live_quiet s _ [EvClose h (Raise x)]). }
  rewrite (disconnect_closed T k h s dt e' Hg Hc).
  destruct Hlive as (Hwf & Hnd & Hvo & Hco & Hl).
  unfold live_registry. simpl.
  rewrite opened_app, closed_app. simpl. rewrite app_nil_r.
  repeat split.
  - now apply DictFacts.wf_del.
  - now apply values_del_nodup.
  - intros h' Hin. apply Hvo. eapply values_del. exact Hin.
  - intros h' Hin. apply in_app_or in Hin. destruct Hin as [Hin|[<-|[]]].
    + now apply Hco.
    + apply Hvo. eapply get_in_values. exact Hg.
  - intros h' Hin Hcl. apply in_app_or in Hcl.
    destruct Hcl as [Hcl|[<-|[]]].
    + apply (Hl h'); [eapply values_del; exact Hin|exact Hcl].
    + now apply (values_del_gone k h (instruments s)).
Qed.

Lemma live_connect (resource_name : string) (alias : option string)
    (s : state E) :
  live_registry s ->
  NoDup (opened (trace (wld (snd (connect_instrument T resource_name
                                    alias s))))) ->
  live_registry (snd (connect_instrument T resource_name alias s)).
Proof.
  intros Hlive Hfresh.
  destruct (connect_cases T resource_name alias s)
    as [(h & _ & Hi & Ht)|(evs & _ & Hi & Ht & _ & Hnc)].
  2:{ apply (live_quiet s _ evs); auto.
      now apply no_close_calls_closed. }
  destruct Hlive as (Hwf & Hnd & Hvo & Hco & Hl).
  rewrite Ht, opened_app in Hfresh. simpl in Hfresh.
  assert (Hnew : ~ In h (opened (trace (wld s)))).
  { intros Hin. apply NoDup_remove_2 in Hfresh. apply Hfresh.
    rewrite app_nil_r. exact Hin. }
  unfold live_registry. rewrite Hi, Ht, opened_app, closed_app. simpl.
  rewrite app_nil_r.
  repeat split.
  - now apply DictFacts.wf_set.
  - apply values_set_nodup; [exact Hnd|]. intros Hin. apply Hnew.
    now apply Hvo.
  - intros h' Hin. apply in_or_app. apply values_set in Hin.
    destruct Hin as [->|Hin]; [right; now left|left; now apply Hvo].
  - intros h' Hin. apply in_or_app. left. now apply Hco.
  - intros h' Hin Hcl. apply values_set in Hin.
    destruct Hin as [->|Hin]; [|now apply (Hl h')].
    apply Hnew. now apply Hco.
Qed.

(** A loop keeps what its body keeps. *)
Lemma for_each_keeps {A : Type} (P : state E -> Prop)
    (body : A -> M E unit) :
  (forall x s, P s -> P (snd (body x s))) ->
  forall xs s, P s -> P (snd (for_each xs body s)).
Proof.
  intros Hbody xs. induction xs as [|x xs IH]; intros s HP; simpl.
  - exact HP.
  - unfold bind. specialize (Hbody x s HP).
    destruct (body x s) as [[[]|e] s1]; simpl in *; [now apply IH|exact Hbody].
Qed.

Lemma live_close_all (s : state E) :
  live_registry s -> live_registry (snd (close_all_connections T s)).
Proof.
  intros Hlive.
  pose (body := fun identifier : string =>
                  bind (disconnect_instrument T identifier)
                       (fun _ : bool => @ret E unit tt)).
  assert (Hbody : forall k s0, live_registry s0 ->
                               live_registry (snd (body k s0))).
  { intros k s0 H0. unfold body, bind, ret.
    pose proof (live_disconnect k s0 H0) as H1.
    destruct (disconnect_instrument T k s0) as [[b|e] s1]; exact H1. }
  pose proof (for_each_keeps live_registry body Hbody
                (Dict.keys (instruments s)) s Hlive) as Hloop.
  destruct (for_each_total body) with
    (xs := Dict.keys (instruments s)) (s := s) as [s1 Hrun].
  { intros k s0. unfold body, bind, ret.
    destruct (disconnect_total T k s0) as (b & evs & Hr & _).
    destruct (disconnect_instrument T k s0) as [r s0']. simpl in Hr.
    subst r. now exists s0'. }
  rewrite Hrun in Hloop. simpl in Hloop.
  rewrite (close_all_run T s s1 Hrun).
  destruct (visa_rm_close T (env (wld s1))) as [[rm_out dt] e'].
  now apply (live_quiet s1 _ [EvRmClose rm_out]).
Qed.

End Live.

Section LiveRuns.

Context {E : Type} (T : Transport E).

(** The methods that do not touch the registry open and close nothing. *)
Lemma quiet_method (m : method) (s : state E) :
  mutates m = false ->
  exists evs,
    instruments (after_method T m s) = instruments s /\
    trace (wld (after_method T m s)) = trace (wld s) ++ evs /\
    closed evs = [] /\ opened evs = [].
Proof.
  assert (Hsend : forall k command delay,
             exists evs,
               instruments (snd (send_command T k command delay s))
               = instruments s /\
               trace (wld (snd (send_command T k command delay s)))
               = trace (wld s) ++ evs /\
               closed evs = [] /\ opened evs = []).
  { intros k command delay.
    destruct (Dict.get k (instruments s)) as [h|] eqn:Hg.
    - rewrite (send_paths T k command delay h s Hg).
      destruct (visa_write T h command (env (wld s))) as [[[[]|x] dt] e'];
        [destruct (sleepable delay)|]; simpl; eexists; repeat split.
    - rewrite send_absent by exact Hg. exists []. simpl.
      now rewrite app_nil_r. }
  assert (Hquery : forall k command delay,
             exists evs,
               instruments (snd (query_command T k command delay s))
               = instruments s /\
               trace (wld (snd (query_command T k command delay s)))
               = trace (wld s) ++ evs /\
               closed evs = [] /\ opened evs = []).
  { intros k command delay.
    destruct (Dict.get k (instruments s)) as [h|] eqn:Hg.
    - rewrite (query_paths T k command delay h s Hg).
      destruct (visa_query T h command (env (wld s))) as [[[raw|x] dt] e'];
        [destruct (sleepable delay)|]; simpl; eexists; repeat split.
    - rewrite query_absent by exact Hg. exists []. simpl.
      now rewrite app_nil_r. }
  intros Hm. destruct m; try discriminate; simpl.
  - destruct (list_resources_run T s) as (res_r & _ & Ht & Hi).
    exists [EvListResources res_r]. auto.
  - apply Hsend.
  - apply Hquery.
  - destruct (Dict.get identifier (instruments s)) as [h|] eqn:Hg.
    + rewrite (read_paths T identifier h s Hg).
      destruct (visa_read T h (env (wld s))) as [[[raw|x] dt] e'];
        simpl; eexists; repeat split.
    + rewrite read_absent by exact Hg. exists []. simpl.
      now rewrite app_nil_r.
  - apply Hquery.
  - apply Hsend.
  - apply Hsend.
  - rewrite wait_for_completion_unfold.
    destruct (wait_fuel_enough timeout (wait_fuel timeout) (le_n _))
      as [Hpos Hfuel].
    destruct (wait_loop_runs T identifier (clock (wld s)) timeout
                (wait_fuel timeout) s Hpos ltac:(lia))
      as (b & s' & evs0 & Hrun & _).
    rewrite Hrun.
    destruct (wait_loop_bounds T identifier (clock (wld s)) timeout
                (wait_fuel timeout) s s' b Hrun)
      as (evs & Htr & Hi & Hpoll & _).
    exists evs. apply poll_events_quiet in Hpoll. tauto.
Qed.

(** Every method only adds to the trace. *)
Lemma after_method_extends (m : method) (s : state E) :
  exists evs, trace (wld (after_method T m s)) = trace (wld s) ++ evs.
Proof.
  destruct (mutates m) eqn:Hm.
  2:{ destruct (quiet_method m s Hm) as (evs & _ & Ht & _). now exists evs. }
  destruct m; try discriminate; simpl.
  - destruct (connect_total T resource_name alias s)
      as (b & evs & _ & Ht & _). now exists evs.
  - destruct (disconnect_total T identifier s) as (b & evs & _ & Ht & _).
    now exists evs.
  - pose (body := fun identifier : string =>
                    bind (disconnect_instrument T identifier)
                         (fun _ : bool => @ret E unit tt)).
    assert (Hloop : exists evs,
               trace (wld (snd (for_each (Dict.keys (instruments s))
                                  body s)))
               = trace (wld s) ++ evs).
    { apply (for_each_keeps
               (fun s0 => exists evs,
                    trace (wld s0) = trace (wld s) ++ evs) body).
      - intros k s0 (evs0 & H0). unfold body, bind, ret.
        destruct (disconnect_total T k s0) as (b & evs & _ & Ht & _).
        destruct (disconnect_instrument T k s0) as [[b'|e] s1];
          simpl in *; exists (evs0 ++ evs);
          rewrite Ht, H0; now rewrite app_assoc.
      - exists []. now rewrite app_nil_r. }
    destruct (for_each_total body) with
      (xs := Dict.keys (instruments s)) (s := s) as [s1 Hrun].
    { intros k s0. unfold body, bind, ret.
      destruct (disconnect_total T k s0) as (b & evs & Hr & _).
      destruct (disconnect_instrument T k s0) as [r s0']. simpl in Hr.
      subst r. now exists s0'. }
    rewrite Hrun in Hloop. simpl in Hloop. destruct Hloop as (evs & Ht).
    rewrite (close_all_run T s s1 Hrun).
    destruct (visa_rm_close T (env (wld s1))) as [[rm_out dt] e'].
    exists (evs ++ [EvRmClose rm_out]). simpl.
    rewrite Ht. now rewrite app_assoc.
Qed.

Lemma after_methods_extends (ms : list method) :
  forall s : state E,
    exists evs, trace (wld (after_methods T ms s)) = trace (wld s) ++ evs.
Proof.
  unfold after_methods.
  induction ms as [|m ms IH]; intros s; simpl.
  - exists []. now rewrite app_nil_r.
  - destruct (IH (after_method T m s)) as (evs2 & H2).
    destruct (after_method_extends m s) as (evs1 & H1).
    exists (evs1 ++ evs2). rewrite H2, H1. now rewrite app_assoc.
Qed.

Lemma live_after_method (m : method) (s : state E) :
  live_registry s ->
  NoDup (opened (trace (wld (after_method T m s)))) ->
  live_registry (after_method T m s).
Proof.
  intros Hlive Hfresh.
  destruct (mutates m) eqn:Hm.
  2:{ destruct (quiet_method m s Hm) as (evs & Hi & Ht & Hc & _).
      now apply (live_quiet s _ evs). }
  destruct m; try discriminate; simpl in *.
  - now apply live_connect.
  - now apply live_disconnect.
  - now apply live_close_all.
Qed.

End LiveRuns.

(** X18.  As long as the VISA layer does not hand out the same handle
    twice (the handles opened along the run are pairwise distinct), the
    registry of a controller holds only handles that are open as far as
    this layer knows: through any sequence of method calls, every
    registered handle was opened and was not closed with success, no two
    keys share a handle, and only handles that were opened get closed.  A
    controller just constructed, in a world with no earlier calls, starts
    that way. *)
Theorem registry_holds_open_handles {E : Type} (T : Transport E)
    (ms : list method) :
  (forall s : state E,
      live_registry s ->
      NoDup (opened (trace (wld (after_methods T ms s)))) ->
      live_registry (after_methods T ms s)) /\
  (forall (visa_library : option string) (w : world E) (gpib : state E),
      trace w = [] ->
      fst (__init__ T visa_library w) = Ok gpib ->
      live_registry gpib).
Proof.
  split.
  - unfold after_methods.
    induction ms as [|m ms IH]; intros s Hlive Hfresh; simpl in *.
    + exact Hlive.
    + apply IH; [|exact Hfresh].
      apply live_after_method; [exact Hlive|].
      destruct (after_methods_extends T ms (after_method T m s))
        as (evs & Ht).
      unfold after_methods in Ht. rewrite Ht, opened_app in Hfresh.
      eapply NoDup_app_remove_r. exact Hfresh.
  - intros visa_library w gpib Hw Hinit.
    unfold __init__, transport_call in Hinit.
    destruct (visa_ResourceManager T _ (env w)) as [[[[]|x] dt] e'];
      simpl in Hinit; [|discriminate].
    injection Hinit as <-. unfold live_registry. simpl. rewrite Hw. simpl.
    repeat split; try constructor; intros h [].
Qed.

Lemma registry_holds_open_handles_witness :
  let s := Rig.start Dict.empty 0%nat [] "1" 5 in
  live_registry
    (after_methods Rig.visa
       [Connect "GPIB0::10::INSTR" (Some "smu");
        Connect "GPIB0::11::INSTR" (Some "smu");
        Connect "GPIB0::12::INSTR" None;
        Disconnect "smu"; QueryCommand "GPIB0::12::INSTR" "*IDN?" 100;
        CloseAllConnections]
       s).
Proof.
  apply (proj1 (registry_holds_open_handles Rig.visa _)).
  - unfold live_registry. simpl.
    repeat split; try constructor; intros h [].
  - vm_compute. repeat constructor; simpl; intuition discriminate.
Defined.
